(** * OCT lesion area calculator: the image pipeline and the manual trace

    A shallow embedding of [finalrun.py] (class [OCTLesionAutoApp], the
    automatic pipeline) and of [tempCodeRunnerFile.py] (class
    [LesionAreaApp], the manual polygon trace).

    - A numpy [uint8] array of shape (H, W) is a list of rows of [Z]
      samples; every operation that builds an array does so cell by cell
      with [tabulate], and reads go through [at_], which takes the value
      a read outside the array yields (the border value of the filter
      that does the read).
    - The Qt widgets are the fields of a record: what a label shows, what
      the canvas was last asked to draw, which buttons are enabled.
    - Python floats that the properties compute with (the calibration
      factor, the area, pointer coordinates) are rationals: every finite
      double is one, and the products involved are taken exactly.
    - The OpenCV calls are written out from their documented meaning where
      a property depends on what they compute (thresholding, structuring
      elements, erosion and dilation, [contourArea], [rectangle],
      [bitwise_and]).  The bilateral filter, the box mean, contour
      tracing and polygon rasterisation are parameters of a section; the
      one fact about them that a property needs is a hypothesis stated
      where it is used. *)

From Stdlib Require Import String ZArith QArith List Bool Lia.
From Stdlib Require Import Floats Uint63.
Import ListNotations.
Open Scope Z_scope.

(** ** numpy arrays *)

Module Mat.

Definition t : Type := list (list Z).

(** [img.shape] of a two-dimensional array. *)
Definition height (m : t) : nat := List.length m.
Definition width (m : t) : nat := List.length (hd [] m).

(** The array of shape (h, w) whose cell (r, c) holds [f r c]. *)
Definition tabulate (h w : nat) (f : Z -> Z -> Z) : t :=
  map (fun r => map (fun c => f (Z.of_nat r) (Z.of_nat c)) (seq 0 w)) (seq 0 h).

(** Cell (r, c), or [d] when (r, c) is not a cell of the array. *)
Definition at_ (m : t) (d : Z) (r c : Z) : Z :=
  if (0 <=? r) && (0 <=? c)
  then nth (Z.to_nat c) (nth (Z.to_nat r) m []) d
  else d.

Definition inside (h w : nat) (r c : Z) : bool :=
  (0 <=? r) && (r <? Z.of_nat h) && (0 <=? c) && (c <? Z.of_nat w).

(** [np.zeros(shape, dtype=np.uint8)] and [np.zeros_like(m)]. *)
Definition zeros (h w : nat) : t := tabulate h w (fun _ _ => 0).
Definition zeros_like (m : t) : t := zeros (height m) (width m).

(** [np.sum(m)]: the accumulator is a 64-bit integer, which no array of
    bytes that fits in memory overflows. *)
Definition sum_row (row : list Z) : Z := fold_right Z.add 0 row.
Definition sum (m : t) : Z := fold_right (fun row acc => sum_row row + acc) 0 m.

(** [m > 0], as an array of 0 and 1. *)
Definition positive (m : t) : t := map (map (fun v => if 0 <? v then 1 else 0)) m.

(** Every cell satisfies [P]. *)
Definition all (P : Z -> Prop) (m : t) : Prop := Forall (Forall P) m.

End Mat.

(** ** The OpenCV calls *)

Module cv2.

(** A point is (x, y): column first, as OpenCV has it. *)
Definition point : Type := (Z * Z)%type.
Definition contour : Type := list point.

Inductive threshold_type : Type := THRESH_BINARY | THRESH_BINARY_INV.

(** [cv2.adaptiveThreshold(src, maxValue, ADAPTIVE_THRESH_MEAN_C, type,
    blockSize, C)]: the threshold of a cell is the mean of its
    blockSize x blockSize neighbourhood minus C; THRESH_BINARY gives
    maxValue where the sample is above its threshold and 0 elsewhere,
    THRESH_BINARY_INV the opposite.  [boxMean blockSize src] is the array
    of neighbourhood means. *)
Definition adaptiveThreshold (boxMean : nat -> Mat.t -> Mat.t)
    (src : Mat.t) (maxValue : Z) (type : threshold_type)
    (blockSize : nat) (C : Z) : Mat.t :=
  let mean := boxMean blockSize src in
  Mat.tabulate (Mat.height src) (Mat.width src) (fun r c =>
    let above := Mat.at_ mean 0 r c - C <? Mat.at_ src 0 r c in
    match type with
    | THRESH_BINARY => if above then maxValue else 0
    | THRESH_BINARY_INV => if above then 0 else maxValue
    end).

Inductive morph_shape : Type := MORPH_RECT | MORPH_CROSS | MORPH_ELLIPSE.

(** [cv2.getStructuringElement(shape, (width, height))], anchored at the
    centre.  Row i of an ellipse, dy rows away from the middle row r,
    covers the columns within dx of the middle column c, where dx is
    c * sqrt((r^2 - dy^2) / r^2) rounded to the nearest integer; the
    rounding is written with the integer square root. *)
Definition getStructuringElement (shape : morph_shape) (ksize : nat * nat) : Mat.t :=
  let (kw, kh) := ksize in
  let r := Z.of_nat kh / 2 in
  let c := Z.of_nat kw / 2 in
  Mat.tabulate kh kw (fun i j =>
    match shape with
    | MORPH_RECT => 1
    | MORPH_CROSS => if (i =? r) || (j =? c) then 1 else 0
    | MORPH_ELLIPSE =>
        let dy := i - r in
        let dx :=
          if r =? 0 then 0
          else (Z.sqrt (4 * c * c * (r * r - dy * dy)) + r) / (2 * r) in
        if (c - dx <=? j) && (j <? c + dx + 1) then 1 else 0
    end).

(** The cells of a structuring element that are set, as (row, column)
    offsets from its anchor, the centre. *)
Definition offsets (kernel : Mat.t) : list (Z * Z) :=
  let ar := Z.of_nat (Mat.height kernel) / 2 in
  let ac := Z.of_nat (Mat.width kernel) / 2 in
  flat_map (fun r =>
    flat_map (fun c =>
      if Mat.at_ kernel 0 (Z.of_nat r) (Z.of_nat c) =? 0 then []
      else [(Z.of_nat r - ar, Z.of_nat c - ac)])
      (seq 0 (Mat.width kernel)))
    (seq 0 (Mat.height kernel)).

(** [cv2.erode] and [cv2.dilate] with the default border: a cell becomes
    the minimum (the maximum) of the cells under the structuring element;
    cells outside the array count as 255 for the minimum and as 0 for the
    maximum, so that they never decide it. *)
Definition erode (kernel : Mat.t) (src : Mat.t) : Mat.t :=
  Mat.tabulate (Mat.height src) (Mat.width src) (fun r c =>
    fold_right Z.min 255
      (map (fun o => Mat.at_ src 255 (r + fst o) (c + snd o)) (offsets kernel))).

Definition dilate (kernel : Mat.t) (src : Mat.t) : Mat.t :=
  Mat.tabulate (Mat.height src) (Mat.width src) (fun r c =>
    fold_right Z.max 0
      (map (fun o => Mat.at_ src 0 (r + fst o) (c + snd o)) (offsets kernel))).

Fixpoint iterate {A : Type} (n : nat) (f : A -> A) (x : A) : A :=
  match n with
  | O => x
  | S k => iterate k f (f x)
  end.

(** [cv2.morphologyEx(src, cv2.MORPH_OPEN, kernel, iterations=n)]: n
    erosions, then n dilations. *)
Definition morphologyEx_OPEN (src kernel : Mat.t) (iterations : nat) : Mat.t :=
  iterate iterations (dilate kernel) (iterate iterations (erode kernel) src).

(** [cv2.contourArea(cnt)]: Green's formula over the closed polygon
    through the points of the contour, half the absolute value of the sum
    of the cross products of consecutive points.  The coordinates are
    pixel indices, so the double it returns is this rational exactly. *)
Fixpoint cross_sum (prev : point) (pts : contour) : Z :=
  match pts with
  | [] => 0
  | p :: rest => fst prev * snd p - snd prev * fst p + cross_sum p rest
  end.

Definition contourArea (cnt : contour) : Q :=
  Z.abs (cross_sum (last cnt (0, 0)) cnt) # 2.

(** [cv2.rectangle(img, pt1, pt2, color, -1)]: the filled rectangle with
    opposite corners pt1 and pt2, both corners included, clipped to the
    array. *)
Definition rectangle (img : Mat.t) (pt1 pt2 : point) (color : Z) : Mat.t :=
  Mat.tabulate (Mat.height img) (Mat.width img) (fun r c =>
    if (Z.min (fst pt1) (fst pt2) <=? c) && (c <=? Z.max (fst pt1) (fst pt2))
       && (Z.min (snd pt1) (snd pt2) <=? r) && (r <=? Z.max (snd pt1) (snd pt2))
    then color
    else Mat.at_ img 0 r c).

(** [cv2.bitwise_and(a, b)]. *)
Definition bitwise_and (a b : Mat.t) : Mat.t :=
  Mat.tabulate (Mat.height a) (Mat.width a) (fun r c =>
    Z.land (Mat.at_ a 0 r c) (Mat.at_ b 0 r c)).

(** [cv2.drawContours(img, [cnt], -1, color, -1)] and
    [cv2.fillPoly(img, [pts], color)]: the cells of the area bounded by
    the closed polygon take the colour, the others keep their value.
    [polyFill pts p] tells whether the rasteriser sets the cell at point
    p. *)
Definition drawContours (polyFill : contour -> point -> bool)
    (img : Mat.t) (cnt : contour) (color : Z) : Mat.t :=
  Mat.tabulate (Mat.height img) (Mat.width img) (fun r c =>
    if polyFill cnt (c, r) then color else Mat.at_ img 0 r c).

Definition fillPoly (polyFill : contour -> point -> bool)
    (img : Mat.t) (pts : contour) (color : Z) : Mat.t :=
  Mat.tabulate (Mat.height img) (Mat.width img) (fun r c =>
    if polyFill pts (c, r) then color else Mat.at_ img 0 r c).

End cv2.

(** ** What both applications share *)

(** The text of a label: a literal, or a float formatted with a fixed
    number of decimals between two literals (an f-string with one
    [{value:.Nf}] field). *)
Inductive text : Type :=
| Plain (s : string)
| Fixed (before : string) (value : Q) (decimals : nat) (after : string).

(** A call either returns or raises. *)
Inductive exn : Type := AttributeError.

Inductive result (A : Type) : Type :=
| Ok (a : A)
| Raise (e : exn).
Arguments Ok {A} a.
Arguments Raise {A} e.

Definition Qltb (x y : Q) : bool :=
  match Qcompare x y with Lt => true | _ => false end.

(** ** finalrun.py: the automatic pipeline *)

Module Auto.

(** What the two axes of the figure were last asked to draw. *)
Record Figure : Type := {
  ax_orig_image : Mat.t;
  ax_mask_image : Mat.t;
  ax_mask_overlay : Mat.t;
  ax_mask_title : text
}.

Record OCTLesionAutoApp : Type := {
  image : option Mat.t;
  mask : option Mat.t;
  mm_per_px : Q;
  label_info : text;
  figure : option Figure;
  btn_clear_enabled : bool;
  btn_save_enabled : bool
}.

(** [__init__]: 6.0 mm scan / 512 px = 0.01172 mm/px. *)
Definition init : OCTLesionAutoApp := {|
  image := None;
  mask := None;
  mm_per_px := 1172 # 100000;
  label_info := Plain "Load an OCT image to highlight lesions.";
  figure := None;
  btn_clear_enabled := false;
  btn_save_enabled := false
|}.

(** [int(h * 0.2)] and [int(h * 0.85)].  The doubles nearest to 0.2 and
    0.85 are off by less than 3e-17, and h / 5 and 17 h / 20 are either
    integers or at least 1/20 away from one, so the truncated products are
    these quotients ([roi_rows_as_floats] evaluates the float products for
    every height up to 2048). *)
Definition roi_top (h : Z) : Z := h / 5.
Definition roi_bottom (h : Z) : Z := 17 * h / 20.

(** The same two rows, computed with binary64 floats as Python does. *)
Definition int_of_float (x : float) : Z :=
  match Prim2SF x with
  | S754_finite s m e =>
      let v := if 0 <=? e then Z.pos m * 2 ^ e else Z.pos m / 2 ^ (- e) in
      if s then - v else v
  | _ => 0
  end.
Definition float_of_int (z : Z) : float := PrimFloat.of_uint63 (Uint63.of_Z z).
Definition roi_top_float (h : Z) : Z :=
  int_of_float (PrimFloat.mul (float_of_int h) 0x1.999999999999ap-3%float).
Definition roi_bottom_float (h : Z) : Z :=
  int_of_float (PrimFloat.mul (float_of_int h) 0x1.b333333333333p-1%float).

(** [100 < area < 3000]. *)
Definition in_band (area : Q) : bool := Qltb 100 area && Qltb area 3000.

(** The values [process_image] computes on the way, by the names it gives
    them. *)
Record Locals : Type := {
  blur : Mat.t;
  thresh : Mat.t;
  opened : Mat.t;
  contours : list cv2.contour;
  mask_clean : Mat.t;
  roi_mask : Mat.t;
  final_mask : Mat.t;
  damaged_px : Z;
  area_mm2 : Q
}.

Section Pipeline.

(** [cv2.bilateralFilter(img, d, sigmaColor, sigmaSpace)]. *)
Variable bilateralFilter : Mat.t -> Z -> Z -> Z -> Mat.t.
(** The box mean [cv2.adaptiveThreshold] thresholds against. *)
Variable boxMean : nat -> Mat.t -> Mat.t.
(** [cv2.findContours(m, cv2.RETR_EXTERNAL, cv2.CHAIN_APPROX_SIMPLE)]: the
    outer border of every connected component, as a polygon through
    border pixels. *)
Variable findContours : Mat.t -> list cv2.contour.
(** The polygon rasteriser behind [cv2.drawContours]. *)
Variable polyFill : cv2.contour -> cv2.point -> bool.
(** [cv2.imread(path, cv2.IMREAD_GRAYSCALE)]: [None] when the file does
    not decode. *)
Variable imread : string -> option Mat.t.

(** Step 4, the loop over the contours. *)
Definition draw_if_in_band (mask_clean : Mat.t) (cnt : cv2.contour) : Mat.t :=
  let area := cv2.contourArea cnt in
  if in_band area then cv2.drawContours polyFill mask_clean cnt 255
  else mask_clean.

Definition region_filter (opened : Mat.t) : Mat.t :=
  fold_left draw_if_in_band (findContours opened) (Mat.zeros_like opened).

(** Step 5, the central band of rows. *)
Definition roi_of (img : Mat.t) : Mat.t :=
  let h := Z.of_nat (Mat.height img) in
  let w := Z.of_nat (Mat.width img) in
  cv2.rectangle (Mat.zeros_like img) (0, roi_top h) (w, roi_bottom h) 255.

(** Steps 1 to 6 of [process_image]. *)
Definition locals (mm_per_px : Q) (img : Mat.t) : Locals :=
  let blur := bilateralFilter img 9 75 75 in
  let thresh :=
    cv2.adaptiveThreshold boxMean blur 255 cv2.THRESH_BINARY_INV 35 5 in
  let kernel := cv2.getStructuringElement cv2.MORPH_ELLIPSE (3%nat, 3%nat) in
  let opened := cv2.morphologyEx_OPEN thresh kernel 2 in
  let mask_clean := region_filter opened in
  let roi_mask := roi_of img in
  let final_mask := cv2.bitwise_and mask_clean roi_mask in
  let damaged_px := Mat.sum (Mat.positive final_mask) in
  let area_mm2 := (inject_Z damaged_px * mm_per_px ^ 2)%Q in
  {| blur := blur; thresh := thresh; opened := opened;
     contours := findContours opened; mask_clean := mask_clean;
     roi_mask := roi_mask; final_mask := final_mask;
     damaged_px := damaged_px; area_mm2 := area_mm2 |}.

Definition process_image (self : OCTLesionAutoApp) : result OCTLesionAutoApp :=
  match image self with
  | None => Raise AttributeError
  | Some img =>
      let l := locals (mm_per_px self) img in
      let area_txt (before : string) := Fixed before (area_mm2 l) 2 " mm²" in
      Ok {| image := Some img;
            mask := Some (final_mask l);
            mm_per_px := mm_per_px self;
            label_info := area_txt "✅ Damaged Area: "%string;
            figure := Some {| ax_orig_image := img;
                              ax_mask_image := img;
                              ax_mask_overlay := final_mask l;
                              ax_mask_title :=
                                area_txt "Detected Lesions
Area: "%string |};
            btn_clear_enabled := true;
            btn_save_enabled := true |}
  end.

(** [load_image]; [file_path] is what the file dialog returned, empty when
    it was cancelled. *)
Definition load_image (file_path : string) (self : OCTLesionAutoApp)
    : result OCTLesionAutoApp :=
  if String.eqb file_path "" then Ok self
  else
    match imread file_path with
    | None =>
        Ok {| image := image self; mask := mask self;
              mm_per_px := mm_per_px self;
              label_info := Plain "❌ Failed to load image.";
              figure := figure self;
              btn_clear_enabled := btn_clear_enabled self;
              btn_save_enabled := btn_save_enabled self |}
    | Some img =>
        process_image
          {| image := Some img; mask := mask self;
             mm_per_px := mm_per_px self;
             label_info := label_info self;
             figure := figure self;
             btn_clear_enabled := btn_clear_enabled self;
             btn_save_enabled := btn_save_enabled self |}
    end.

Definition reset_view (self : OCTLesionAutoApp) : OCTLesionAutoApp :=
  {| image := None; mask := None;
     mm_per_px := mm_per_px self;
     label_info := Plain "Load an OCT image to highlight lesions.";
     figure := None;
     btn_clear_enabled := false;
     btn_save_enabled := false |}.

End Pipeline.

End Auto.

(** ** tempCodeRunnerFile.py: the manual trace *)

Module Manual.

(** A matplotlib mouse event: whether it fell inside the image axes
    ([event.inaxes == self.ax]) and where, in image coordinates. *)
Record MouseEvent : Type := {
  inaxes : bool;
  xdata : Q;
  ydata : Q
}.

Record LesionAreaApp : Type := {
  image : option Mat.t;
  drawing : bool;
  points : list (Q * Q);
  pixel_spacing_mm : Q;
  area_label : text;
  (** what [show_image] last drew: the image and the red line *)
  canvas : option Mat.t * list (Q * Q)
}.

(** [__init__]: 6 microns per pixel. *)
Definition init : LesionAreaApp := {|
  image := None;
  drawing := false;
  points := [];
  pixel_spacing_mm := 6 # 1000;
  area_label := Plain "Draw a lesion to calculate area.";
  canvas := (None, [])
|}.

Definition show_image (self : LesionAreaApp) : LesionAreaApp :=
  {| image := image self; drawing := drawing self; points := points self;
     pixel_spacing_mm := pixel_spacing_mm self;
     area_label := area_label self;
     canvas := (image self, points self) |}.

Definition clear_points (self : LesionAreaApp) : LesionAreaApp :=
  show_image
    {| image := image self; drawing := drawing self; points := [];
       pixel_spacing_mm := pixel_spacing_mm self;
       area_label := Plain "Draw a lesion to calculate area.";
       canvas := canvas self |}.

Definition on_click (event : MouseEvent) (self : LesionAreaApp) : LesionAreaApp :=
  if negb (inaxes event) || (match image self with None => true | Some _ => false end)
  then self
  else
    {| image := image self; drawing := true;
       points := [(xdata event, ydata event)];
       pixel_spacing_mm := pixel_spacing_mm self;
       area_label := area_label self;
       canvas := canvas self |}.

Definition on_motion (event : MouseEvent) (self : LesionAreaApp) : LesionAreaApp :=
  if drawing self && inaxes event
  then
    show_image
      {| image := image self; drawing := drawing self;
         points := points self ++ [(xdata event, ydata event)];
         pixel_spacing_mm := pixel_spacing_mm self;
         area_label := area_label self;
         canvas := canvas self |}
  else self.


(** A float stored into an [np.int32] array: the fraction is dropped.
    Coordinates of events inside the axes are bounded by the image size,
    far inside the 32-bit range. *)
Definition int32_of_float (x : Q) : Z := Z.quot (Qnum x) (Z.pos (Qden x)).

Definition int32_array (points : list (Q * Q)) : cv2.contour :=
  map (fun p => (int32_of_float (fst p), int32_of_float (snd p))) points.

(** The values [calculate_area] computes, by the names it gives them. *)
Record Locals : Type := {
  pts : cv2.contour;
  mask : Mat.t;
  pixel_area : Z;
  mm2_area : Q
}.

Section Trace.

(** The polygon rasteriser behind [cv2.fillPoly]. *)
Variable polyFill : cv2.contour -> cv2.point -> bool.
(** [cv2.imread(path, cv2.IMREAD_GRAYSCALE)]. *)
Variable imread : string -> option Mat.t.

Definition load_image (file_path : string) (self : LesionAreaApp) : LesionAreaApp :=
  if String.eqb file_path "" then self
  else
    show_image
      {| image := imread file_path; drawing := drawing self;
         points := points self;
         pixel_spacing_mm := pixel_spacing_mm self;
         area_label := area_label self;
         canvas := canvas self |}.

Definition locals (pixel_spacing_mm : Q) (img : Mat.t) (points : list (Q * Q))
    : Locals :=
  let pts := int32_array points in
  let mask :=
    cv2.fillPoly polyFill (Mat.zeros (Mat.height img) (Mat.width img)) pts 1 in
  let pixel_area := Mat.sum mask in
  let mm2_area := (inject_Z pixel_area * pixel_spacing_mm ^ 2)%Q in
  {| pts := pts; mask := mask; pixel_area := pixel_area; mm2_area := mm2_area |}.

Definition calculate_area (self : LesionAreaApp) : result LesionAreaApp :=
  if (List.length (points self) <? 3)%nat
  then
    Ok {| image := image self; drawing := drawing self; points := points self;
          pixel_spacing_mm := pixel_spacing_mm self;
          area_label := Plain "Draw a closed region.";
          canvas := canvas self |}
  else
    match image self with
    | None => Raise AttributeError
    | Some img =>
        let l := locals (pixel_spacing_mm self) img (points self) in
        Ok (show_image
              {| image := image self; drawing := drawing self;
                 points := points self;
                 pixel_spacing_mm := pixel_spacing_mm self;
                 area_label := Fixed "Lesion Area: " (mm2_area l) 4 " mm²";
                 canvas := canvas self |})
    end.

Definition on_release (self : LesionAreaApp) : result LesionAreaApp :=
  if negb (drawing self) then Ok self
  else
    calculate_area
      {| image := image self; drawing := false; points := points self;
         pixel_spacing_mm := pixel_spacing_mm self;
         area_label := area_label self;
         canvas := canvas self |}.

(** What the user can do to the window, and the handler each event is
    connected to. *)
Inductive event : Type :=
| Press (e : MouseEvent)
| Motion (e : MouseEvent)
| Release
| ClearClicked
| LoadClicked (file_path : string).

Definition step (self : LesionAreaApp) (ev : event) : result LesionAreaApp :=
  match ev with
  | Press e => Ok (on_click e self)
  | Motion e => Ok (on_motion e self)
  | Release => on_release self
  | ClearClicked => Ok (clear_points self)
  | LoadClicked file_path => Ok (load_image file_path self)
  end.

Fixpoint run (self : LesionAreaApp) (evs : list event) : result LesionAreaApp :=
  match evs with
  | [] => Ok self
  | ev :: rest =>
      match step self ev with
      | Ok self' => run self' rest
      | Raise e => Raise e
      end
  end.

Definition is_press (ev : event) : bool :=
  match ev with Press _ => true | _ => false end.

(** The two states of the trace. *)
Definition Idle (self : LesionAreaApp) : Prop := drawing self = false.
Definition Tracing (self : LesionAreaApp) : Prop := drawing self = true.

End Trace.

End Manual.

(** ** A reference rasteriser and sample inputs

    The statements below that need a rasteriser, a blur or a contour
    tracer to evaluate on take these.  [closed_polygon] is the exact
    reading of "the area bounded by the polygon": the integer points on
    its outline or inside it (odd number of crossings).  On polygons
    whose sides are horizontal, vertical or diagonal, as the sides of a
    traced contour are, the outline drawn by OpenCV consists of exactly
    those points. *)

Module Samples.

Definition edges (pts : cv2.contour) : list (cv2.point * cv2.point) :=
  combine pts (tl pts ++ firstn 1 pts).

(** Twice the signed area of the triangle a, b, p. *)
Definition turn (a b p : cv2.point) : Z :=
  (fst b - fst a) * (snd p - snd a) - (fst p - fst a) * (snd b - snd a).

Definition on_segment (p : cv2.point) (e : cv2.point * cv2.point) : bool :=
  let (a, b) := e in
  (turn a b p =? 0)
  && (Z.min (fst a) (fst b) <=? fst p) && (fst p <=? Z.max (fst a) (fst b))
  && (Z.min (snd a) (snd b) <=? snd p) && (snd p <=? Z.max (snd a) (snd b)).

(** The side e crosses the horizontal ray that leaves p to the right. *)
Definition crosses (p : cv2.point) (e : cv2.point * cv2.point) : bool :=
  let (a, b) := e in
  if snd a <=? snd p
  then (snd p <? snd b) && (0 <? turn a b p)
  else (snd b <=? snd p) && (turn a b p <? 0).

Definition closed_polygon (pts : cv2.contour) (p : cv2.point) : bool :=
  existsb (on_segment p) (edges pts)
  || Nat.odd (List.length (filter (crosses p) (edges pts))).

(** A blur that changes nothing and a box mean that is 128 everywhere. *)
Definition no_blur (img : Mat.t) (d sigmaColor sigmaSpace : Z) : Mat.t := img.
Definition grey_mean (blockSize : nat) (src : Mat.t) : Mat.t :=
  Mat.tabulate (Mat.height src) (Mat.width src) (fun _ _ => 128).

(** A solid block of w x h foreground cells with its top left corner at
    column x, row y, in an array of shape (H, W); and the outer border of
    such a block as [cv2.findContours] returns it: the four corner
    pixels, from the top left one downwards. *)
Definition block (H W : nat) (x y w h : Z) : Mat.t :=
  Mat.tabulate H W (fun r c =>
    if (x <=? c) && (c <? x + w) && (y <=? r) && (r <? y + h) then 255 else 0).

Definition block_contour (x y w h : Z) : cv2.contour :=
  [(x, y); (x, y + h - 1); (x + w - 1, y + h - 1); (x + w - 1, y)].

(** A tracer that finds one block. *)
Definition one_block (x y w h : Z) (m : Mat.t) : list cv2.contour :=
  [block_contour x y w h].

(** A scan of 20 rows and 40 columns, bright in its upper half and dark
    in its lower half; the lower half is what the pipeline thresholds to
    foreground.  A file system with that one image and nothing else. *)
Definition scan : Mat.t :=
  Mat.tabulate 20 40 (fun r c => if 10 <=? r then 40 else 200).
Definition one_file (path : string) : option Mat.t :=
  if String.eqb path "scan.png" then Some scan else None.

(** A scan of 31 rows and 11 columns, dark on rows 10 to 20 over its
    whole width and bright above and below: the pipeline thresholds the
    dark band to one foreground component of 11 x 11 pixels, which the
    opening leaves as it is. *)
Definition strip : Mat.t :=
  Mat.tabulate 31 11 (fun r c => if (10 <=? r) && (r <=? 20) then 40 else 200).

(** The cells at most two steps, along rows and columns, from the square
    of cells with rows and columns a to b: a square with its corners cut,
    which two openings by the 3 x 3 cross leave as it is.  Its outer
    border as [cv2.findContours] returns it with CHAIN_APPROX_SIMPLE: the
    end points of its eight sides, from the leftmost pixel of the top row
    downwards. *)
Definition cut_square (a b r c : Z) : bool :=
  Z.max 0 (Z.max (a - r) (r - b)) + Z.max 0 (Z.max (a - c) (c - b)) <=? 2.

Definition cut_square_contour (a b : Z) : cv2.contour :=
  [(a, a - 2); (a - 2, a); (a - 2, b); (a, b + 2);
   (b, b + 2); (b + 2, b); (b + 2, a); (b, a - 2)].

(** A scan of 64 rows and 64 columns with two dark regions on a bright
    ground: a ring five pixels thick, the cut square around rows and
    columns 4 to 59 without the cells of rows and columns 7 to 56, and a
    blob in the hole of the ring, the cut square around rows and columns
    25 to 40.  [nested_mask] is the mask with those two regions as
    foreground. *)
Definition in_ring (r c : Z) : bool :=
  cut_square 4 59 r c
  && negb ((7 <=? r) && (r <=? 56) && (7 <=? c) && (c <=? 56)).

Definition in_blob (r c : Z) : bool := cut_square 25 40 r c.

Definition nested : Mat.t :=
  Mat.tabulate 64 64 (fun r c => if in_ring r c || in_blob r c then 40 else 200).

Definition nested_mask : Mat.t :=
  Mat.tabulate 64 64 (fun r c => if in_ring r c || in_blob r c then 255 else 0).

Definition blob_mask : Mat.t :=
  Mat.tabulate 64 64 (fun r c => if in_blob r c then 255 else 0).

(** The external contours of [nested_mask]: with RETR_EXTERNAL only the
    outer border of the ring is returned; the border of its hole and the
    border of the blob inside the hole are not. *)
Definition ring_only (m : Mat.t) : list cv2.contour := [cut_square_contour 4 59].

(** The connected components of the claims, in their words: [grow m s]
    is the set s with the foreground cells of m that touch it, the eight
    neighbours of a cell counting as touching; the component of a cell is
    what growing from that cell reaches, and a set that growing leaves
    unchanged is a union of whole components. *)
Definition neighbours : list (Z * Z) :=
  [(-1, -1); (-1, 0); (-1, 1); (0, -1); (0, 0); (0, 1); (1, -1); (1, 0); (1, 1)].

Definition grow (m s : Mat.t) : Mat.t :=
  Mat.tabulate (Mat.height m) (Mat.width m) (fun r c =>
    if negb (Mat.at_ m 0 r c =? 0)
       && existsb (fun o => negb (Mat.at_ s 0 (r + fst o) (c + snd o) =? 0))
            neighbours
    then 255 else 0).

Definition component (steps : nat) (m : Mat.t) (r0 c0 : Z) : Mat.t :=
  Nat.iter steps (grow m)
    (Mat.tabulate (Mat.height m) (Mat.width m) (fun r c =>
       if (r =? r0) && (c =? c0) then Mat.at_ m 0 r c else 0)).

(** The manual window with the scan loaded, in the middle of a trace that
    has collected the given points, and the same window at rest. *)
Definition tracing (points : list (Q * Q)) : Manual.LesionAreaApp :=
  {| Manual.image := Some scan; Manual.drawing := true;
     Manual.points := points;
     Manual.pixel_spacing_mm := 6 # 1000;
     Manual.area_label := Plain "Draw a lesion to calculate area.";
     Manual.canvas := (Some scan, points) |}.

Definition at_rest (points : list (Q * Q)) (label : text) : Manual.LesionAreaApp :=
  {| Manual.image := Some scan; Manual.drawing := false;
     Manual.points := points;
     Manual.pixel_spacing_mm := 6 # 1000;
     Manual.area_label := label;
     Manual.canvas := (Some scan, points) |}.

(** A pointer position, and three traces: two points, a triangle, and a
    second triangle whose coordinates have the same integer parts as
    those of the first. *)
Definition pt (x y : Q) : Q * Q := (x, y).
Definition two_points : list (Q * Q) := [pt (5 # 2) (7 # 2); pt 10 3].
Definition triangle : list (Q * Q) :=
  [pt (5 # 2) (7 # 2); pt 10 3; pt (21 # 4) (37 # 4)].
Definition triangle' : list (Q * Q) :=
  [pt (29 # 10) (31 # 10); pt (43 # 4) (39 # 10); pt 5 (19 # 2)].

(** A mouse event inside the axes. *)
Definition mouse (x y : Q) : Manual.MouseEvent :=
  {| Manual.inaxes := true; Manual.xdata := x; Manual.ydata := y |}.

End Samples.

(** The number of foreground cells of a mask, cell by cell. *)
Definition count_foreground (m : Mat.t) : Z :=
  Z.of_nat (List.length (filter (fun v => negb (v =? 0)) (concat m))).

(** A mask whose cells are all 0 or 255. *)
Definition two_valued (m : Mat.t) : Prop := Mat.all (fun v => v = 0 \/ v = 255) m.

(** ** Erosion and dilation, cell by cell

    The two filters on the function that gives the value of a cell, for
    an array of shape (h, w) and the offsets K of a structuring element;
    [cv2.erode] and [cv2.dilate] tabulate them. *)

Module Pointwise.

Definition clip (h w : nat) (d : Z) (f : Z -> Z -> Z) (r c : Z) : Z :=
  if Mat.inside h w r c then f r c else d.

Definition ero (h w : nat) (K : list (Z * Z)) (f : Z -> Z -> Z) (r c : Z) : Z :=
  fold_right Z.min 255 (map (fun o => clip h w 255 f (r + fst o) (c + snd o)) K).

Definition dil (h w : nat) (K : list (Z * Z)) (f : Z -> Z -> Z) (r c : Z) : Z :=
  fold_right Z.max 0 (map (fun o => clip h w 0 f (r + fst o) (c + snd o)) K).

(** Comparison and equality of two arrays of shape (h, w), given by their
    cells. *)
Definition le_on (h w : nat) (f g : Z -> Z -> Z) : Prop :=
  forall r c, Mat.inside h w r c = true -> f r c <= g r c.

Definition eq_on (h w : nat) (f g : Z -> Z -> Z) : Prop :=
  forall r c, Mat.inside h w r c = true -> f r c = g r c.

(** A structuring element that is its own reflection through the anchor. *)
Definition symmetric (K : list (Z * Z)) : Prop :=
  forall o, In o K -> In (- fst o, - snd o) K.

End Pointwise.

(** * Properties *)

(** ** Arrays *)

Lemma height_tabulate (h w : nat) (f : Z -> Z -> Z) :
  Mat.height (Mat.tabulate h w f) = h.
Proof.
  unfold Mat.height, Mat.tabulate. now rewrite length_map, length_seq.
Qed.

Lemma width_tabulate (h w : nat) (f : Z -> Z -> Z) :
  Mat.width (Mat.tabulate h w f) = match h with O => O | S _ => w end.
Proof.
  unfold Mat.width, Mat.tabulate. destruct h as [|h]; [reflexivity|].
  cbn [seq map hd]. now rewrite length_map, length_seq.
Qed.

Lemma inside_iff (h w : nat) (r c : Z) :
  Mat.inside h w r c = true <-> 0 <= r < Z.of_nat h /\ 0 <= c < Z.of_nat w.
Proof. unfold Mat.inside. lia. Qed.

Lemma at_tabulate (h w : nat) (f : Z -> Z -> Z) (d r c : Z) :
  Mat.at_ (Mat.tabulate h w f) d r c = if Mat.inside h w r c then f r c else d.
Proof.
  unfold Mat.at_, Mat.inside, Mat.tabulate.
  destruct (0 <=? r) eqn:Hr; [|reflexivity].
  destruct (0 <=? c) eqn:Hc; cbn [andb]; [|now rewrite andb_false_r].
  apply Z.leb_le in Hr, Hc.
  destruct (r <? Z.of_nat h) eqn:Hrh; cbn [andb].
  - apply Z.ltb_lt in Hrh.
    rewrite (nth_indep _ [] (map (fun c0 => f (Z.of_nat 0) (Z.of_nat c0)) (seq 0 w)))
      by (rewrite length_map, length_seq; lia).
    rewrite (map_nth (fun r0 => map (fun c0 => f (Z.of_nat r0) (Z.of_nat c0)) (seq 0 w))).
    rewrite seq_nth by lia. cbn [Nat.add].
    destruct (c <? Z.of_nat w) eqn:Hcw.
    + apply Z.ltb_lt in Hcw.
      rewrite (nth_indep _ d (f (Z.of_nat (Z.to_nat r)) (Z.of_nat 0)))
        by (rewrite length_map, length_seq; lia).
      rewrite (map_nth (fun c0 => f (Z.of_nat (Z.to_nat r)) (Z.of_nat c0))).
      rewrite seq_nth by lia. cbn [Nat.add]. now rewrite !Z2Nat.id by lia.
    + apply Z.ltb_ge in Hcw.
      apply nth_overflow. rewrite length_map, length_seq. lia.
  - apply Z.ltb_ge in Hrh.
    rewrite (nth_overflow (map _ (seq 0 h)))
      by (rewrite length_map, length_seq; lia).
    now destruct (Z.to_nat c).
Qed.

Lemma tabulate_ext (h w : nat) (f g : Z -> Z -> Z) :
  (forall r c, Mat.inside h w r c = true -> f r c = g r c) ->
  Mat.tabulate h w f = Mat.tabulate h w g.
Proof.
  intros H. unfold Mat.tabulate.
  apply map_ext_in. intros r Hr. apply in_seq in Hr.
  apply map_ext_in. intros c Hc. apply in_seq in Hc.
  apply H. apply inside_iff. lia.
Qed.

Lemma all_tabulate (P : Z -> Prop) (h w : nat) (f : Z -> Z -> Z) :
  (forall r c, Mat.inside h w r c = true -> P (f r c)) ->
  Mat.all P (Mat.tabulate h w f).
Proof.
  intros H. unfold Mat.all, Mat.tabulate.
  apply Forall_forall. intros row Hrow.
  apply in_map_iff in Hrow. destruct Hrow as [r [<- Hr]]. apply in_seq in Hr.
  apply Forall_forall. intros v Hv.
  apply in_map_iff in Hv. destruct Hv as [c [<- Hc]]. apply in_seq in Hc.
  apply H. apply inside_iff. lia.
Qed.

Lemma at_all (P : Z -> Prop) (m : Mat.t) (d r c : Z) :
  Mat.all P m -> P d -> P (Mat.at_ m d r c).
Proof.
  intros Hm Hd. unfold Mat.at_.
  destruct ((0 <=? r) && (0 <=? c)); [|exact Hd].
  destruct (Nat.lt_ge_cases (Z.to_nat r) (List.length m)) as [Hr|Hr].
  - assert (Hrow : Forall P (nth (Z.to_nat r) m [])).
    { eapply Forall_forall in Hm; [exact Hm|]. now apply nth_In. }
    destruct (Nat.lt_ge_cases (Z.to_nat c) (List.length (nth (Z.to_nat r) m []))) as [Hc|Hc].
    + eapply Forall_forall in Hrow; [exact Hrow|]. now apply nth_In.
    + now rewrite nth_overflow.
  - rewrite (nth_overflow m) by exact Hr. now destruct (Z.to_nat c).
Qed.

Lemma all_impl (P Q : Z -> Prop) (m : Mat.t) :
  (forall v, P v -> Q v) -> Mat.all P m -> Mat.all Q m.
Proof.
  intros H Hm. unfold Mat.all in *.
  eapply Forall_impl; [|exact Hm]. intros row. apply Forall_impl. exact H.
Qed.

(** ** Erosion and dilation *)

Lemma fold_min_le_base (l : list Z) : fold_right Z.min 255 l <= 255.
Proof. induction l as [|x l IH]; cbn; lia. Qed.

Lemma fold_min_le_elt (l : list Z) (x : Z) : In x l -> fold_right Z.min 255 l <= x.
Proof.
  induction l as [|y l IH]; cbn; [tauto|].
  intros [->|Hin]; [|specialize (IH Hin)]; lia.
Qed.

Lemma fold_min_glb (l : list Z) (a : Z) :
  a <= 255 -> (forall x, In x l -> a <= x) -> a <= fold_right Z.min 255 l.
Proof.
  intros Ha. induction l as [|y l IH]; cbn; intros H; [exact Ha|].
  apply Z.min_glb; [apply H; now left | apply IH; intros x Hx; apply H; now right].
Qed.

Lemma fold_max_ge_base (l : list Z) : 0 <= fold_right Z.max 0 l.
Proof. induction l as [|x l IH]; cbn; lia. Qed.

Lemma fold_max_ge_elt (l : list Z) (x : Z) : In x l -> x <= fold_right Z.max 0 l.
Proof.
  induction l as [|y l IH]; cbn; [tauto|].
  intros [->|Hin]; [|specialize (IH Hin)]; lia.
Qed.

Lemma fold_max_lub (l : list Z) (a : Z) :
  0 <= a -> (forall x, In x l -> x <= a) -> fold_right Z.max 0 l <= a.
Proof.
  intros Ha. induction l as [|y l IH]; cbn; intros H; [exact Ha|].
  apply Z.max_lub; [apply H; now left | apply IH; intros x Hx; apply H; now right].
Qed.

Section Adjunction.

Import Pointwise.

Variables h w : nat.
Variable K : list (Z * Z).
Hypothesis K_symmetric : symmetric K.

Local Notation "'E'" := (ero h w K).
Local Notation "'D'" := (dil h w K).
Local Notation "f <<= g" := (le_on h w f g) (at level 70).

Lemma ero_le_255 (f : Z -> Z -> Z) (r c : Z) : E f r c <= 255.
Proof. apply fold_min_le_base. Qed.

Lemma dil_ge_0 (f : Z -> Z -> Z) (r c : Z) : 0 <= D f r c.
Proof. apply fold_max_ge_base. Qed.

Lemma ero_ge_0 (f : Z -> Z -> Z) :
  (fun _ _ => 0) <<= f -> forall r c, 0 <= E f r c.
Proof.
  intros Hf r c. apply fold_min_glb; [lia|].
  intros x Hx. apply in_map_iff in Hx. destruct Hx as [o [<- _]].
  unfold clip. destruct (Mat.inside h w _ _) eqn:Hin; [now apply Hf | lia].
Qed.

Lemma dil_le_255 (f : Z -> Z -> Z) :
  f <<= (fun _ _ => 255) -> forall r c, D f r c <= 255.
Proof.
  intros Hf r c. apply fold_max_lub; [lia|].
  intros x Hx. apply in_map_iff in Hx. destruct Hx as [o [<- _]].
  unfold clip. destruct (Mat.inside h w _ _) eqn:Hin; [now apply Hf | lia].
Qed.

Lemma ero_ext (f g : Z -> Z -> Z) :
  eq_on h w f g -> forall r c, E f r c = E g r c.
Proof.
  intros H r c. unfold ero. f_equal. apply map_ext. intros o.
  unfold clip. destruct (Mat.inside h w _ _) eqn:Hin; [now apply H | reflexivity].
Qed.

Lemma dil_ext (f g : Z -> Z -> Z) :
  eq_on h w f g -> forall r c, D f r c = D g r c.
Proof.
  intros H r c. unfold dil. f_equal. apply map_ext. intros o.
  unfold clip. destruct (Mat.inside h w _ _) eqn:Hin; [now apply H | reflexivity].
Qed.

Lemma ero_mono (f g : Z -> Z -> Z) : f <<= g -> E f <<= E g.
Proof.
  intros H r c _. apply fold_min_glb; [apply ero_le_255|].
  intros x Hx. apply in_map_iff in Hx. destruct Hx as [o [<- Ho]].
  unfold clip at 1. destruct (Mat.inside h w (r + fst o) (c + snd o)) eqn:Hin.
  - etransitivity; [|apply H, Hin].
    apply fold_min_le_elt. apply in_map_iff. exists o. split; [|exact Ho].
    unfold clip. now rewrite Hin.
  - apply ero_le_255.
Qed.

Lemma dil_mono (f g : Z -> Z -> Z) : f <<= g -> D f <<= D g.
Proof.
  intros H r c _. apply fold_max_lub; [apply dil_ge_0|].
  intros x Hx. apply in_map_iff in Hx. destruct Hx as [o [<- Ho]].
  unfold clip at 1. destruct (Mat.inside h w (r + fst o) (c + snd o)) eqn:Hin.
  - etransitivity; [apply H, Hin|].
    apply fold_max_ge_elt. apply in_map_iff. exists o. split; [|exact Ho].
    unfold clip. now rewrite Hin.
  - apply dil_ge_0.
Qed.

(** A cell is one of the cells its neighbours look at. *)
Lemma clip_back (d : Z) (f : Z -> Z -> Z) (o : Z * Z) (r c : Z) :
  Mat.inside h w r c = true ->
  clip h w d f (r + fst o + fst (- fst o, - snd o))
               (c + snd o + snd (- fst o, - snd o)) = f r c.
Proof.
  intros Hrc. cbn [fst snd].
  replace (r + fst o + - fst o) with r by lia.
  replace (c + snd o + - snd o) with c by lia.
  unfold clip. now rewrite Hrc.
Qed.

(** Dilating, then eroding, gives back at least the array. *)
Lemma closing_extensive (f : Z -> Z -> Z) :
  f <<= (fun _ _ => 255) -> f <<= E (D f).
Proof.
  intros Hf r c Hrc. apply fold_min_glb; [now apply Hf|].
  intros x Hx. apply in_map_iff in Hx. destruct Hx as [o [<- Ho]].
  unfold clip at 1. destruct (Mat.inside h w (r + fst o) (c + snd o)) eqn:Hin;
    [|now apply Hf].
  apply fold_max_ge_elt. apply in_map_iff.
  exists (- fst o, - snd o). split; [|now apply K_symmetric].
  now apply clip_back.
Qed.

(** Eroding, then dilating, gives back at most the array. *)
Lemma opening_anti_extensive (g : Z -> Z -> Z) :
  (fun _ _ => 0) <<= g -> D (E g) <<= g.
Proof.
  intros Hg r c Hrc. apply fold_max_lub; [now apply Hg|].
  intros x Hx. apply in_map_iff in Hx. destruct Hx as [o [<- Ho]].
  unfold clip at 1. destruct (Mat.inside h w (r + fst o) (c + snd o)) eqn:Hin;
    [|now apply Hg].
  apply fold_min_le_elt. apply in_map_iff.
  exists (- fst o, - snd o). split; [|now apply K_symmetric].
  now apply clip_back.
Qed.

(** The same for n erosions and n dilations. *)

Lemma iterate_comm {A : Type} (F : A -> A) (n : nat) :
  forall x, cv2.iterate n F (F x) = F (cv2.iterate n F x).
Proof. induction n as [|n IH]; intros x; cbn; [reflexivity|apply IH]. Qed.

Lemma iter_ero_mono (n : nat) :
  forall f g, f <<= g -> cv2.iterate n E f <<= cv2.iterate n E g.
Proof.
  induction n as [|n IH]; intros f g H; cbn; [exact H|].
  apply IH, ero_mono, H.
Qed.

Lemma iter_dil_mono (n : nat) :
  forall f g, f <<= g -> cv2.iterate n D f <<= cv2.iterate n D g.
Proof.
  induction n as [|n IH]; intros f g H; cbn; [exact H|].
  apply IH, dil_mono, H.
Qed.

Lemma iter_ero_ge_0 (n : nat) :
  forall g, (fun _ _ => 0) <<= g -> (fun _ _ => 0) <<= cv2.iterate n E g.
Proof.
  induction n as [|n IH]; intros g H; cbn; [exact H|].
  apply IH. intros r c _. now apply ero_ge_0.
Qed.

Lemma iter_dil_le_255 (n : nat) :
  forall f, f <<= (fun _ _ => 255) -> cv2.iterate n D f <<= (fun _ _ => 255).
Proof.
  induction n as [|n IH]; intros f H; cbn; [exact H|].
  apply IH. intros r c _. now apply dil_le_255.
Qed.

Lemma iter_ero_le_255 (n : nat) :
  forall f, (forall r c, f r c <= 255) ->
  forall r c, cv2.iterate n E f r c <= 255.
Proof.
  induction n as [|n IH]; intros f H; cbn; [exact H|].
  apply IH. apply ero_le_255.
Qed.

Lemma iter_closing_extensive (n : nat) :
  forall f, f <<= (fun _ _ => 255) ->
  f <<= cv2.iterate n E (cv2.iterate n D f).
Proof.
  induction n as [|n IH]; intros f Hf; [intros r c _; cbn; lia|].
  cbn [cv2.iterate]. rewrite (iterate_comm (dil h w K)).
  intros r c Hrc. etransitivity; [apply (IH f Hf r c Hrc)|].
  apply iter_ero_mono; [|exact Hrc].
  apply closing_extensive. now apply iter_dil_le_255.
Qed.

Lemma iter_opening_anti_extensive (n : nat) :
  forall g, (fun _ _ => 0) <<= g ->
  cv2.iterate n D (cv2.iterate n E g) <<= g.
Proof.
  induction n as [|n IH]; intros g Hg; [intros r c _; cbn; lia|].
  cbn [cv2.iterate]. rewrite (iterate_comm (ero h w K)).
  intros r c Hrc. etransitivity; [|apply (IH g Hg r c Hrc)].
  apply iter_dil_mono; [|exact Hrc].
  apply opening_anti_extensive. now apply iter_ero_ge_0.
Qed.

(** n erosions followed by n dilations leave the result of n dilations
    as it is. *)
Lemma dilations_are_open (n : nat) (y : Z -> Z -> Z) :
  y <<= (fun _ _ => 255) ->
  eq_on h w (cv2.iterate n D (cv2.iterate n E (cv2.iterate n D y)))
            (cv2.iterate n D y).
Proof.
  intros Hy r c Hrc. apply Z.le_antisymm.
  - (* the opening of the dilations is below them *)
    destruct n as [|n]; [cbn; lia|].
    apply iter_opening_anti_extensive; [|exact Hrc].
    intros r' c' _. cbn [cv2.iterate]. rewrite iterate_comm. apply dil_ge_0.
  - (* y is below its closing, and dilation is monotone *)
    apply iter_dil_mono; [|exact Hrc].
    now apply iter_closing_extensive.
Qed.

End Adjunction.

(** ** The filters on arrays *)

Lemma tabulate_shape (h w : nat) (f g : Z -> Z -> Z) :
  Mat.tabulate (Mat.height (Mat.tabulate h w f)) (Mat.width (Mat.tabulate h w f)) g
  = Mat.tabulate h w g.
Proof.
  rewrite height_tabulate, width_tabulate. now destruct h.
Qed.

Lemma erode_tabulate (kernel : Mat.t) (h w : nat) (f : Z -> Z -> Z) :
  cv2.erode kernel (Mat.tabulate h w f)
  = Mat.tabulate h w (Pointwise.ero h w (cv2.offsets kernel) f).
Proof.
  unfold cv2.erode. rewrite tabulate_shape.
  apply tabulate_ext. intros r c _. unfold Pointwise.ero. f_equal.
  apply map_ext. intros o. now rewrite at_tabulate.
Qed.

Lemma dilate_tabulate (kernel : Mat.t) (h w : nat) (f : Z -> Z -> Z) :
  cv2.dilate kernel (Mat.tabulate h w f)
  = Mat.tabulate h w (Pointwise.dil h w (cv2.offsets kernel) f).
Proof.
  unfold cv2.dilate. rewrite tabulate_shape.
  apply tabulate_ext. intros r c _. unfold Pointwise.dil. f_equal.
  apply map_ext. intros o. now rewrite at_tabulate.
Qed.

Lemma iterate_erode_tabulate (kernel : Mat.t) (h w : nat) (n : nat) :
  forall f,
  cv2.iterate n (cv2.erode kernel) (Mat.tabulate h w f)
  = Mat.tabulate h w (cv2.iterate n (Pointwise.ero h w (cv2.offsets kernel)) f).
Proof.
  induction n as [|n IH]; intros f; cbn [cv2.iterate]; [reflexivity|].
  now rewrite erode_tabulate, IH.
Qed.

Lemma iterate_dilate_tabulate (kernel : Mat.t) (h w : nat) (n : nat) :
  forall f,
  cv2.iterate n (cv2.dilate kernel) (Mat.tabulate h w f)
  = Mat.tabulate h w (cv2.iterate n (Pointwise.dil h w (cv2.offsets kernel)) f).
Proof.
  induction n as [|n IH]; intros f; cbn [cv2.iterate]; [reflexivity|].
  now rewrite dilate_tabulate, IH.
Qed.

(** Opening with one iteration or more, as one tabulated array: the
    dilations of an array whose cells are at most 255. *)
Lemma open_as_dilations (kernel src : Mat.t) (n : nat) :
  exists y : Z -> Z -> Z,
    (forall r c, y r c <= 255) /\
    cv2.morphologyEx_OPEN src kernel (S n)
    = Mat.tabulate (Mat.height src) (Mat.width src)
        (cv2.iterate (S n)
           (Pointwise.dil (Mat.height src) (Mat.width src) (cv2.offsets kernel)) y).
Proof.
  set (h := Mat.height src). set (w := Mat.width src).
  set (g0 := fun r c =>
    fold_right Z.min 255
      (map (fun o => Mat.at_ src 255 (r + fst o) (c + snd o)) (cv2.offsets kernel))).
  exists (cv2.iterate n (Pointwise.ero h w (cv2.offsets kernel)) g0). split.
  - apply iter_ero_le_255. intros r c. apply fold_min_le_base.
  - unfold cv2.morphologyEx_OPEN.
    change (cv2.iterate (S n) (cv2.erode kernel) src)
      with (cv2.iterate n (cv2.erode kernel) (Mat.tabulate h w g0)).
    now rewrite iterate_erode_tabulate, iterate_dilate_tabulate.
Qed.

(** Opening is idempotent for every structuring element that is its own
    reflection and every number of iterations. *)
Lemma opening_idempotent_symmetric (kernel src : Mat.t) (n : nat) :
  Pointwise.symmetric (cv2.offsets kernel) ->
  cv2.morphologyEx_OPEN (cv2.morphologyEx_OPEN src kernel n) kernel n
  = cv2.morphologyEx_OPEN src kernel n.
Proof.
  intros Hsym. destruct n as [|n]; [reflexivity|].
  destruct (open_as_dilations kernel src n) as [y [Hy ->]].
  unfold cv2.morphologyEx_OPEN.
  rewrite iterate_erode_tabulate, iterate_dilate_tabulate.
  apply tabulate_ext.
  apply (dilations_are_open _ _ _ Hsym (S n) y).
  intros r c _. apply Hy.
Qed.

Example ellipse_3x3 :
  cv2.getStructuringElement cv2.MORPH_ELLIPSE (3%nat, 3%nat)
  = [[0; 1; 0]; [1; 1; 1]; [0; 1; 0]].
Proof. reflexivity. Qed.

Example ellipse_5x5 :
  cv2.getStructuringElement cv2.MORPH_ELLIPSE (5%nat, 5%nat)
  = [[0; 0; 1; 0; 0]; [1; 1; 1; 1; 1]; [1; 1; 1; 1; 1]; [1; 1; 1; 1; 1];
     [0; 0; 1; 0; 0]].
Proof. reflexivity. Qed.

Lemma ellipse_offsets :
  cv2.offsets (cv2.getStructuringElement cv2.MORPH_ELLIPSE (3%nat, 3%nat))
  = [(-1, 0); (0, -1); (0, 0); (0, 1); (1, 0)].
Proof. reflexivity. Qed.

Lemma ellipse_symmetric :
  Pointwise.symmetric
    (cv2.offsets (cv2.getStructuringElement cv2.MORPH_ELLIPSE (3%nat, 3%nat))).
Proof.
  rewrite ellipse_offsets. intros o Ho. cbn in Ho.
  destruct Ho as [<-|[<-|[<-|[<-|[<-|[]]]]]]; cbn; tauto.
Qed.

(** C6. The morphological cleaner is idempotent: opening a mask with the
    3 x 3 ellipse and two iterations, then opening the result again with
    the same parameters, gives the result of the first opening.  It holds
    for every array, binary or not. *)
Theorem opening_idempotent (src : Mat.t) :
  let kernel := cv2.getStructuringElement cv2.MORPH_ELLIPSE (3%nat, 3%nat) in
  let opened := cv2.morphologyEx_OPEN src kernel 2 in
  cv2.morphologyEx_OPEN opened kernel 2 = opened.
Proof.
  cbv zeta. apply opening_idempotent_symmetric, ellipse_symmetric.
Qed.

Example opening_removes_a_speck :
  cv2.morphologyEx_OPEN
    [[0; 0; 0; 0; 0; 0; 0; 0];
     [0; 255; 0; 0; 0; 0; 0; 0];
     [0; 0; 0; 255; 255; 255; 255; 255];
     [0; 0; 0; 255; 255; 255; 255; 255];
     [0; 0; 0; 255; 255; 255; 255; 255];
     [0; 0; 0; 255; 255; 255; 255; 255];
     [0; 0; 0; 255; 255; 255; 255; 255]]
    (cv2.getStructuringElement cv2.MORPH_ELLIPSE (3%nat, 3%nat)) 2
  = [[0; 0; 0; 0; 0; 0; 0; 0];
     [0; 0; 0; 0; 0; 0; 0; 0];
     [0; 0; 0; 0; 0; 255; 255; 255];
     [0; 0; 0; 0; 255; 255; 255; 255];
     [0; 0; 0; 255; 255; 255; 255; 255];
     [0; 0; 0; 255; 255; 255; 255; 255];
     [0; 0; 0; 255; 255; 255; 255; 255]].
Proof. vm_compute. reflexivity. Qed.

(** ** Masks hold 0 and 255 only *)

Lemma fold_min_two_valued (l : list Z) :
  (forall x, In x l -> x = 0 \/ x = 255) ->
  fold_right Z.min 255 l = 0 \/ fold_right Z.min 255 l = 255.
Proof.
  induction l as [|x l IH]; cbn; intros H; [now right|].
  destruct (H x (or_introl eq_refl)) as [->| ->];
    destruct IH as [-> | ->]; try (intros; apply H; now right); lia.
Qed.

Lemma fold_max_two_valued (l : list Z) :
  (forall x, In x l -> x = 0 \/ x = 255) ->
  fold_right Z.max 0 l = 0 \/ fold_right Z.max 0 l = 255.
Proof.
  induction l as [|x l IH]; cbn; intros H; [now left|].
  destruct (H x (or_introl eq_refl)) as [->| ->];
    destruct IH as [-> | ->]; try (intros; apply H; now right); lia.
Qed.

Lemma adaptiveThreshold_two_valued boxMean src type blockSize C :
  two_valued (cv2.adaptiveThreshold boxMean src 255 type blockSize C).
Proof.
  apply all_tabulate. intros r c _. cbv zeta.
  destruct type, (_ <? _); auto.
Qed.

Lemma erode_two_valued kernel src :
  two_valued src -> two_valued (cv2.erode kernel src).
Proof.
  intros H. apply all_tabulate. intros r c _.
  apply fold_min_two_valued. intros x Hx.
  apply in_map_iff in Hx. destruct Hx as [o [<- _]].
  apply (at_all (fun v => v = 0 \/ v = 255)); auto.
Qed.

Lemma dilate_two_valued kernel src :
  two_valued src -> two_valued (cv2.dilate kernel src).
Proof.
  intros H. apply all_tabulate. intros r c _.
  apply fold_max_two_valued. intros x Hx.
  apply in_map_iff in Hx. destruct Hx as [o [<- _]].
  apply (at_all (fun v => v = 0 \/ v = 255)); auto.
Qed.

Lemma iterate_preserves {A : Type} (P : A -> Prop) (f : A -> A) :
  (forall x, P x -> P (f x)) -> forall n x, P x -> P (cv2.iterate n f x).
Proof.
  intros Hf n. induction n as [|n IH]; cbn; intros x Hx; [exact Hx|].
  apply IH, Hf, Hx.
Qed.

Lemma open_two_valued src kernel n :
  two_valued src -> two_valued (cv2.morphologyEx_OPEN src kernel n).
Proof.
  intros H. unfold cv2.morphologyEx_OPEN.
  apply iterate_preserves; [apply dilate_two_valued|].
  apply iterate_preserves; [apply erode_two_valued|exact H].
Qed.

Lemma zeros_two_valued h w : two_valued (Mat.zeros h w).
Proof. apply all_tabulate. intros; now left. Qed.

Lemma drawContours_two_valued polyFill img cnt :
  two_valued img -> two_valued (cv2.drawContours polyFill img cnt 255).
Proof.
  intros H. apply all_tabulate. intros r c _.
  destruct (polyFill cnt (c, r)); [now right|].
  apply (at_all (fun v => v = 0 \/ v = 255)); auto.
Qed.

Lemma region_filter_two_valued findContours polyFill opened :
  two_valued (Auto.region_filter findContours polyFill opened).
Proof.
  unfold Auto.region_filter.
  assert (H : two_valued (Mat.zeros_like opened)) by apply zeros_two_valued.
  revert H. generalize (Mat.zeros_like opened).
  induction (findContours opened) as [|cnt l IH]; intros m Hm; cbn [fold_left];
    [exact Hm|].
  apply IH. unfold Auto.draw_if_in_band.
  destruct (Auto.in_band _); [now apply drawContours_two_valued | exact Hm].
Qed.

Lemma roi_two_valued img : two_valued (Auto.roi_of img).
Proof.
  apply all_tabulate. intros r c _.
  destruct (_ && _); [now right|].
  apply (at_all (fun v => v = 0 \/ v = 255)); [apply zeros_two_valued | now left].
Qed.

Lemma bitwise_and_two_valued a b :
  two_valued a -> two_valued b -> two_valued (cv2.bitwise_and a b).
Proof.
  intros Ha Hb. apply all_tabulate. intros r c _.
  assert (Hx : Mat.at_ a 0 r c = 0 \/ Mat.at_ a 0 r c = 255)
    by (apply (at_all (fun v => v = 0 \/ v = 255)); auto).
  assert (Hy : Mat.at_ b 0 r c = 0 \/ Mat.at_ b 0 r c = 255)
    by (apply (at_all (fun v => v = 0 \/ v = 255)); auto).
  destruct Hx as [-> | ->], Hy as [-> | ->]; cbn; auto.
Qed.

Lemma final_mask_two_valued bilateralFilter boxMean findContours polyFill c img :
  two_valued
    (Auto.final_mask
       (Auto.locals bilateralFilter boxMean findContours polyFill c img)).
Proof.
  unfold Auto.locals. cbn [Auto.final_mask].
  apply bitwise_and_two_valued; [apply region_filter_two_valued | apply roi_two_valued].
Qed.

Create HintDb masks.
#[local] Hint Resolve adaptiveThreshold_two_valued open_two_valued
  region_filter_two_valued roi_two_valued bitwise_and_two_valued : masks.

(** C9. Every mask the automatic pipeline produces holds 0 and 255 only:
    the thresholded one, the opened one, the region-filtered one and the
    final one, whatever the image, the blur, the box mean, the contours
    found and the rasteriser. *)
Theorem pipeline_masks_two_valued
    (bilateralFilter : Mat.t -> Z -> Z -> Z -> Mat.t)
    (boxMean : nat -> Mat.t -> Mat.t)
    (findContours : Mat.t -> list cv2.contour)
    (polyFill : cv2.contour -> cv2.point -> bool)
    (mm_per_px : Q) (img : Mat.t) :
  let l := Auto.locals bilateralFilter boxMean findContours polyFill mm_per_px img in
  two_valued (Auto.thresh l) /\ two_valued (Auto.opened l)
  /\ two_valued (Auto.mask_clean l) /\ two_valued (Auto.final_mask l).
Proof.
  cbv zeta. unfold Auto.locals. cbn [Auto.thresh Auto.opened Auto.mask_clean Auto.final_mask].
  repeat split; auto with masks.
Qed.

(** ** The region filter *)

Lemma Qltb_lt (x y : Q) : Qltb x y = true <-> (x < y)%Q.
Proof.
  unfold Qltb. rewrite Qlt_alt. destruct (x ?= y)%Q; split; congruence.
Qed.

Lemma in_band_iff (area : Q) :
  Auto.in_band area = true <-> (100 < area /\ area < 3000)%Q.
Proof.
  unfold Auto.in_band. rewrite andb_true_iff, !Qltb_lt. tauto.
Qed.

Lemma drawContours_tabulate polyFill h w f cnt color :
  cv2.drawContours polyFill (Mat.tabulate h w f) cnt color
  = Mat.tabulate h w (fun r c => if polyFill cnt (c, r) then color else f r c).
Proof.
  unfold cv2.drawContours. rewrite tabulate_shape.
  apply tabulate_ext. intros r c Hrc. now rewrite at_tabulate, Hrc.
Qed.

Lemma fold_draw_tabulate polyFill (l : list cv2.contour) :
  forall h w f,
  fold_left (Auto.draw_if_in_band polyFill) l (Mat.tabulate h w f)
  = Mat.tabulate h w (fun r c =>
      if existsb (fun cnt =>
           Auto.in_band (cv2.contourArea cnt) && polyFill cnt (c, r)) l
      then 255 else f r c).
Proof.
  induction l as [|cnt l IH]; intros h w f; cbn [fold_left existsb];
    [reflexivity|].
  assert (Hstep : Auto.draw_if_in_band polyFill (Mat.tabulate h w f) cnt
    = Mat.tabulate h w (fun r c =>
        if Auto.in_band (cv2.contourArea cnt) && polyFill cnt (c, r)
        then 255 else f r c)).
  { unfold Auto.draw_if_in_band. destruct (Auto.in_band _); cbn [andb].
    - apply drawContours_tabulate.
    - reflexivity. }
  rewrite Hstep, IH. apply tabulate_ext. intros r c _.
  destruct (Auto.in_band (cv2.contourArea cnt) && polyFill cnt (c, r));
    cbn [orb]; [|reflexivity].
  now destruct (existsb _ l).
Qed.

Lemma fold_draw_filter polyFill (l : list cv2.contour) :
  forall m,
  fold_left (Auto.draw_if_in_band polyFill) l m
  = fold_left (fun acc cnt => cv2.drawContours polyFill acc cnt 255)
      (filter (fun cnt => Auto.in_band (cv2.contourArea cnt)) l) m.
Proof.
  induction l as [|cnt l IH]; intros m; cbn [fold_left filter]; [reflexivity|].
  rewrite IH. unfold Auto.draw_if_in_band.
  now destruct (Auto.in_band (cv2.contourArea cnt)).
Qed.

Lemma at_region_filter findContours polyFill opened (r c : Z) :
  Mat.at_ (Auto.region_filter findContours polyFill opened) 0 r c
  = if Mat.inside (Mat.height opened) (Mat.width opened) r c
       && existsb (fun cnt =>
            Auto.in_band (cv2.contourArea cnt) && polyFill cnt (c, r))
            (findContours opened)
    then 255 else 0.
Proof.
  unfold Auto.region_filter, Mat.zeros_like, Mat.zeros.
  rewrite fold_draw_tabulate, at_tabulate.
  destruct (Mat.inside _ _ r c); cbn [andb]; [|reflexivity].
  now destruct (existsb _ _).
Qed.

(** C1, as the code has it.  The components the region filter sees are
    the contours [cv2.findContours] returns for the opened mask, the
    external ones only, and the area measured is [cv2.contourArea].  The
    mask the filter returns has the shape of its input and a cell of it
    is foreground, with value 255, exactly when the filled area of some
    returned contour whose area is strictly between 100 and 3000 covers
    it.  A contour whose area is 100 or less, or 3000 or more, is not
    drawn at all: the mask is the one obtained from the list of contours
    with those left out.  A cell that the filled area of no returned
    contour covers is background, whatever components of the opened mask
    it belongs to. *)
Theorem region_filter_band
    (findContours : Mat.t -> list cv2.contour)
    (polyFill : cv2.contour -> cv2.point -> bool) (opened : Mat.t) :
  let kept cnt := Auto.in_band (cv2.contourArea cnt) in
  (forall cnt, kept cnt = true
     <-> (100 < cv2.contourArea cnt /\ cv2.contourArea cnt < 3000)%Q)
  /\ Auto.region_filter findContours polyFill opened
     = Mat.tabulate (Mat.height opened) (Mat.width opened) (fun r c =>
         if existsb (fun cnt => kept cnt && polyFill cnt (c, r))
              (findContours opened)
         then 255 else 0)
  /\ Auto.region_filter findContours polyFill opened
     = fold_left (fun acc cnt => cv2.drawContours polyFill acc cnt 255)
         (filter kept (findContours opened)) (Mat.zeros_like opened)
  /\ (forall r c,
        (forall cnt, In cnt (findContours opened) -> polyFill cnt (c, r) = false) ->
        Mat.at_ (Auto.region_filter findContours polyFill opened) 0 r c = 0).
Proof.
  cbv zeta. split; [|split; [|split]].
  - intros cnt. apply in_band_iff.
  - unfold Auto.region_filter, Mat.zeros_like, Mat.zeros.
    apply fold_draw_tabulate.
  - unfold Auto.region_filter. apply fold_draw_filter.
  - intros r c Hnone. rewrite at_region_filter.
    replace (existsb _ (findContours opened)) with false; [now rewrite andb_false_r|].
    symmetry. apply Bool.not_true_is_false. intros He.
    apply existsb_exists in He. destruct He as [cnt [Hin Hc]].
    apply andb_true_iff in Hc. rewrite (Hnone cnt Hin) in Hc.
    destruct Hc; discriminate.
Qed.

(** C1, as stated, fails on a component that lies in the hole of another
    one.  The scan [Samples.nested] thresholds to a ring and a blob inside
    it, and the opening leaves both as they are.  The blob is a maximal
    connected component of that mask: growing from its centre reaches it
    in ten steps and growing further adds nothing.  It has 388 pixels and
    its outer border encloses an area of 353, both strictly inside the
    band.  The only external contour of the mask is the outer border of
    the ring, whose area, 3473, is outside the band; the blob is never
    traced, so the filtered mask is empty and no pixel is reported as
    damaged. *)
Lemma component_in_a_hole_is_dropped :
  let l := Auto.locals Samples.no_blur Samples.grey_mean
             Samples.ring_only Samples.closed_polygon
             (1172 # 100000) Samples.nested in
  let m := Auto.opened l in
  let blob := Samples.component 10 m 32 32 in
  Auto.thresh l = Samples.nested_mask
  /\ m = Auto.thresh l
  /\ blob = Samples.blob_mask
  /\ Samples.grow m blob = blob
  /\ cv2.drawContours Samples.closed_polygon (Mat.zeros_like m)
       (Samples.cut_square_contour 25 40) 255 = blob
  /\ count_foreground blob = 388
  /\ (cv2.contourArea (Samples.cut_square_contour 25 40) == 353)%Q
  /\ Auto.in_band (inject_Z (count_foreground blob)) = true
  /\ Auto.in_band (cv2.contourArea (Samples.cut_square_contour 25 40)) = true
  /\ (cv2.contourArea (Samples.cut_square_contour 4 59) == 3473)%Q
  /\ Auto.in_band (cv2.contourArea (Samples.cut_square_contour 4 59)) = false
  /\ Mat.at_ m 0 32 32 = 255
  /\ Mat.at_ (Auto.mask_clean l) 0 32 32 = 0
  /\ Auto.mask_clean l = Mat.zeros_like m
  /\ Auto.damaged_px l = 0.
Proof.
  cbv zeta. repeat apply conj; vm_compute; reflexivity.
Qed.

(** Three solid blocks in a mask of 70 rows and 140 columns: 11 x 11
    pixels (contour area exactly 100), 12 x 12 pixels (contour area 121)
    and 61 x 51 pixels (contour area exactly 3000).  Only the second one
    is drawn. *)
Example region_filter_on_three_blocks :
  Auto.region_filter
    (fun _ => [Samples.block_contour 1 1 11 11;
               Samples.block_contour 15 1 12 12;
               Samples.block_contour 30 1 61 51])
    Samples.closed_polygon (Mat.zeros 70 140)
  = Samples.block 70 140 15 1 12 12.
Proof. vm_compute. reflexivity. Qed.

(** ** Sums and counts *)

Lemma sum_row_app (l1 l2 : list Z) :
  Mat.sum_row (l1 ++ l2) = Mat.sum_row l1 + Mat.sum_row l2.
Proof.
  unfold Mat.sum_row. induction l1 as [|x l1 IH]; cbn; [reflexivity|].
  rewrite IH. lia.
Qed.

(** The sum of a value v over the indices below n that lie in [a, b). *)
Lemma sum_indicator (n : nat) (a b v : Z) :
  Mat.sum_row
    (map (fun i => if (a <=? Z.of_nat i) && (Z.of_nat i <? b) then v else 0)
         (seq 0 n))
  = v * Z.max 0 (Z.min b (Z.of_nat n) - Z.max a 0).
Proof.
  induction n as [|n IH].
  - cbn. replace (Z.max 0 (Z.min b 0 - Z.max a 0)) with 0 by lia. lia.
  - rewrite seq_S, map_app, sum_row_app, IH. cbn [Nat.add map Mat.sum_row fold_right].
    destruct ((a <=? Z.of_nat n) && (Z.of_nat n <? b)) eqn:Hin.
    + replace (Z.max 0 (Z.min b (Z.of_nat (S n)) - Z.max a 0))
        with (Z.max 0 (Z.min b (Z.of_nat n) - Z.max a 0) + 1) by lia.
      ring.
    + replace (Z.max 0 (Z.min b (Z.of_nat (S n)) - Z.max a 0))
        with (Z.max 0 (Z.min b (Z.of_nat n) - Z.max a 0)) by lia.
      ring.
Qed.

Lemma sum_tabulate (h w : nat) (f : Z -> Z -> Z) :
  Mat.sum (Mat.tabulate h w f)
  = Mat.sum_row
      (map (fun r => Mat.sum_row (map (fun c => f (Z.of_nat r) (Z.of_nat c)) (seq 0 w)))
           (seq 0 h)).
Proof.
  unfold Mat.tabulate, Mat.sum. induction (seq 0 h) as [|r l IH]; cbn; [reflexivity|].
  now rewrite IH.
Qed.

Lemma positive_tabulate (h w : nat) (f : Z -> Z -> Z) :
  Mat.positive (Mat.tabulate h w f)
  = Mat.tabulate h w (fun r c => if 0 <? f r c then 1 else 0).
Proof.
  unfold Mat.positive, Mat.tabulate. rewrite map_map.
  apply map_ext. intros r. now rewrite map_map.
Qed.

Lemma count_row_sum (row : list Z) :
  Forall (fun v => 0 <= v) row ->
  Z.of_nat (List.length (filter (fun v => negb (v =? 0)) row))
  = Mat.sum_row (map (fun v => if 0 <? v then 1 else 0) row).
Proof.
  unfold Mat.sum_row. induction 1 as [|v row Hv _ IH]; [reflexivity|].
  cbn [filter map fold_right]. rewrite <- IH.
  destruct (v =? 0) eqn:E0, (0 <? v) eqn:Ep; cbn [negb List.length]; lia.
Qed.

(** [np.sum(m > 0)] counts the foreground cells of an array that has no
    negative cell. *)
Lemma sum_positive_count (m : Mat.t) :
  Mat.all (fun v => 0 <= v) m -> Mat.sum (Mat.positive m) = count_foreground m.
Proof.
  unfold count_foreground, Mat.all, Mat.sum, Mat.positive.
  induction 1 as [|row m Hrow _ IH]; [reflexivity|].
  cbn [map fold_right concat]. rewrite filter_app, length_app, Nat2Z.inj_add.
  rewrite IH. fold (Mat.sum_row (map (fun v => if 0 <? v then 1 else 0) row)).
  now rewrite <- count_row_sum.
Qed.

Lemma count_row_sum01 (row : list Z) :
  Forall (fun v => v = 0 \/ v = 1) row ->
  Z.of_nat (List.length (filter (fun v => negb (v =? 0)) row)) = Mat.sum_row row.
Proof.
  unfold Mat.sum_row. induction 1 as [|v row Hv _ IH]; [reflexivity|].
  cbn [filter fold_right]. rewrite <- IH.
  destruct Hv as [-> | ->]; cbn [Z.eqb negb List.length]; lia.
Qed.

(** [np.sum(m)] counts the foreground cells of an array of zeros and
    ones. *)
Lemma sum_count01 (m : Mat.t) :
  Mat.all (fun v => v = 0 \/ v = 1) m -> Mat.sum m = count_foreground m.
Proof.
  unfold count_foreground, Mat.all, Mat.sum.
  induction 1 as [|row m Hrow _ IH]; [reflexivity|].
  cbn [fold_right concat]. rewrite filter_app, length_app, Nat2Z.inj_add.
  rewrite IH. now rewrite <- count_row_sum01.
Qed.

Lemma count_foreground_zero (m : Mat.t) :
  Mat.all (fun v => v = 0) m -> count_foreground m = 0.
Proof.
  unfold count_foreground, Mat.all.
  induction 1 as [|row m Hrow _ IH]; [reflexivity|].
  cbn [concat]. rewrite filter_app, length_app, Nat2Z.inj_add.
  unfold count_foreground in IH. rewrite IH.
  assert (Hr : filter (fun v => negb (v =? 0)) row = []).
  { induction Hrow as [|v row -> _ IHr]; [reflexivity|]. cbn. exact IHr. }
  now rewrite Hr.
Qed.

(** A solid block of w x h cells inside the array has w h foreground
    cells. *)
Lemma count_block (H W : nat) (x y w h : Z) :
  0 <= x -> 0 <= y -> 0 <= w -> 0 <= h ->
  x + w <= Z.of_nat W -> y + h <= Z.of_nat H ->
  count_foreground (Samples.block H W x y w h) = w * h.
Proof.
  intros Hx Hy Hw Hh HxW HyH.
  rewrite <- sum_positive_count.
  2:{ apply all_tabulate. intros r c _. destruct (_ && _); lia. }
  unfold Samples.block. rewrite positive_tabulate, sum_tabulate.
  erewrite map_ext.
  2:{ intros r.
      erewrite (map_ext _ (fun c =>
        if (x <=? Z.of_nat c) && (Z.of_nat c <? x + w)
        then (if (y <=? Z.of_nat r) && (Z.of_nat r <? y + h) then 1 else 0)
        else 0)).
      - apply sum_indicator.
      - intros c.
        destruct (x <=? Z.of_nat c), (Z.of_nat c <? x + w),
          (y <=? Z.of_nat r), (Z.of_nat r <? y + h); reflexivity. }
  replace (Z.max 0 (Z.min (x + w) (Z.of_nat W) - Z.max x 0)) with w by lia.
  erewrite (map_ext _ (fun r =>
    if (y <=? Z.of_nat r) && (Z.of_nat r <? y + h) then w else 0)).
  2:{ intros r. destruct ((y <=? Z.of_nat r) && (Z.of_nat r <? y + h)); lia. }
  rewrite sum_indicator.
  replace (Z.max 0 (Z.min (y + h) (Z.of_nat H) - Z.max y 0)) with h by lia.
  reflexivity.
Qed.

(** ** The area the band is compared with *)

Lemma in_band_half (a : Z) :
  Auto.in_band (a # 2) = (200 <? a) && (a <? 6000).
Proof.
  unfold Auto.in_band, Qltb, Qcompare. cbn [Qnum Qden inject_Z].
  rewrite !Z.mul_1_r.
  change (100 * Z.pos 2) with 200. change (3000 * Z.pos 2) with 6000.
  rewrite (Z.ltb_compare 200 a), (Z.ltb_compare a 6000).
  reflexivity.
Qed.

Lemma cross_sum_block (x y w h : Z) :
  cv2.cross_sum (last (Samples.block_contour x y w h) (0, 0))
    (Samples.block_contour x y w h)
  = - (2 * ((w - 1) * (h - 1))).
Proof. unfold Samples.block_contour. cbn [last cv2.cross_sum fst snd]. ring. Qed.

(** C2, as the code has it.  The value the region filter compares with
    the band is [cv2.contourArea]: half the absolute value of the sum of
    the cross products of consecutive contour points, so a contour is
    drawn exactly when that sum is strictly between 200 and 6000 in
    absolute value.  For the outer border of a solid block of w x h pixels
    it is (w - 1) (h - 1), while the block has w h foreground pixels. *)
Theorem band_compares_contour_area
    (polyFill : cv2.contour -> cv2.point -> bool) (mask_clean : Mat.t) :
  (forall cnt : cv2.contour,
     let s := Z.abs (cv2.cross_sum (last cnt (0, 0)) cnt) in
     Auto.draw_if_in_band polyFill mask_clean cnt
     = if (200 <? s) && (s <? 6000)
       then cv2.drawContours polyFill mask_clean cnt 255
       else mask_clean)
  /\ (forall (H W : nat) (x y w h : Z),
        0 <= x -> 0 <= y -> 1 <= w -> 1 <= h ->
        x + w <= Z.of_nat W -> y + h <= Z.of_nat H ->
        (cv2.contourArea (Samples.block_contour x y w h)
           == inject_Z ((w - 1) * (h - 1)))%Q
        /\ count_foreground (Samples.block H W x y w h) = w * h
        /\ Auto.draw_if_in_band polyFill mask_clean (Samples.block_contour x y w h)
           = if (100 <? (w - 1) * (h - 1)) && ((w - 1) * (h - 1) <? 3000)
             then cv2.drawContours polyFill mask_clean
                    (Samples.block_contour x y w h) 255
             else mask_clean).
Proof.
  assert (Hgen : forall cnt : cv2.contour,
     Auto.draw_if_in_band polyFill mask_clean cnt
     = if (200 <? Z.abs (cv2.cross_sum (last cnt (0, 0)) cnt))
          && (Z.abs (cv2.cross_sum (last cnt (0, 0)) cnt) <? 6000)
       then cv2.drawContours polyFill mask_clean cnt 255
       else mask_clean).
  { intros cnt. unfold Auto.draw_if_in_band, cv2.contourArea.
    now rewrite in_band_half. }
  split; [exact Hgen|].
  intros H W x y w h Hx Hy Hw Hh HxW HyH.
  assert (Habs : Z.abs (cv2.cross_sum (last (Samples.block_contour x y w h) (0, 0))
                          (Samples.block_contour x y w h))
                 = 2 * ((w - 1) * (h - 1))).
  { rewrite cross_sum_block. nia. }
  split; [|split].
  - unfold cv2.contourArea. rewrite Habs. unfold Qeq. cbn [Qnum Qden inject_Z]. lia.
  - apply count_block; lia.
  - rewrite Hgen, Habs.
    replace (200 <? 2 * ((w - 1) * (h - 1))) with (100 <? (w - 1) * (h - 1))
      by (apply Bool.eq_true_iff_eq; rewrite !Z.ltb_lt; lia).
    replace (2 * ((w - 1) * (h - 1)) <? 6000) with ((w - 1) * (h - 1) <? 3000)
      by (apply Bool.eq_true_iff_eq; rewrite !Z.ltb_lt; lia).
    reflexivity.
Qed.

Lemma band_compares_contour_area_witness :
  (cv2.contourArea (Samples.block_contour 0 10 11 11) == inject_Z (10 * 10))%Q
  /\ count_foreground (Samples.block 31 11 0 10 11 11) = 11 * 11.
Proof.
  pose proof (proj2 (band_compares_contour_area Samples.closed_polygon (Mat.zeros 31 11))
                31%nat 11%nat 0 10 11 11) as H.
  destruct H as [Ha [Hc _]]; try lia. split; [exact Ha | exact Hc].
Defined.

(** C2, as stated, fails on the strip, a scan of 31 rows and 11 columns
    whose rows 10 to 20 are dark.  The thresholded mask is the solid block
    of those rows, 11 x 11 pixels, and the opening leaves it as it is, so
    this block is the mask the region filter receives.  Its four corner
    pixels are its outer border: filling that contour gives the block
    back.  The block has 121 foreground pixels, inside the band, but the
    area compared is 100, so the block is dropped and no pixel is
    reported as damaged. *)
Lemma contour_area_is_not_pixel_count :
  let l := Auto.locals Samples.no_blur Samples.grey_mean
             (Samples.one_block 0 10 11 11) Samples.closed_polygon
             (1172 # 100000) Samples.strip in
  let m := Auto.opened l in
  let cnt := Samples.block_contour 0 10 11 11 in
  Auto.thresh l = Samples.block 31 11 0 10 11 11
  /\ m = Auto.thresh l
  /\ cv2.drawContours Samples.closed_polygon (Mat.zeros_like m) cnt 255 = m
  /\ count_foreground m = 121
  /\ (cv2.contourArea cnt == 100)%Q
  /\ ~ (cv2.contourArea cnt == inject_Z (count_foreground m))%Q
  /\ Auto.in_band (inject_Z (count_foreground m)) = true
  /\ Auto.in_band (cv2.contourArea cnt) = false
  /\ Auto.mask_clean l = Mat.zeros_like m
  /\ Auto.damaged_px l = 0.
Proof.
  cbv zeta. repeat apply conj; try (vm_compute; reflexivity).
  vm_compute. discriminate.
Qed.

(** ** The band of rows *)

Lemma roi_rows_ordered (h : Z) : 0 <= h -> Auto.roi_top h <= Auto.roi_bottom h.
Proof.
  intros Hh. unfold Auto.roi_top, Auto.roi_bottom.
  apply Z.div_le_lower_bound; [lia|].
  pose proof (Z.mul_div_le h 5 ltac:(lia)). lia.
Qed.

Lemma at_roi (img : Mat.t) (r c : Z) :
  Mat.at_ (Auto.roi_of img) 0 r c
  = if Mat.inside (Mat.height img) (Mat.width img) r c
       && (Auto.roi_top (Z.of_nat (Mat.height img)) <=? r)
       && (r <=? Auto.roi_bottom (Z.of_nat (Mat.height img)))
    then 255 else 0.
Proof.
  unfold Auto.roi_of, cv2.rectangle, Mat.zeros_like, Mat.zeros.
  rewrite tabulate_shape, at_tabulate. cbn [fst snd].
  destruct (Mat.inside (Mat.height img) (Mat.width img) r c) eqn:Hin;
    [|reflexivity].
  apply inside_iff in Hin.
  pose proof (roi_rows_ordered (Z.of_nat (Mat.height img)) ltac:(lia)) as Hord.
  rewrite at_tabulate.
  rewrite Z.min_l, Z.max_r, Z.min_l, Z.max_r by lia.
  replace (0 <=? c) with true by (symmetry; apply Z.leb_le; lia).
  replace (c <=? Z.of_nat (Mat.width img)) with true
    by (symmetry; apply Z.leb_le; lia).
  cbn [andb].
  destruct ((Auto.roi_top _ <=? r) && (r <=? Auto.roi_bottom _)); [reflexivity|].
  now destruct (Mat.inside _ _ r c).
Qed.

Lemma at_bitwise_and_tabulate (h w : nat) (f : Z -> Z -> Z) (b : Mat.t) (r c : Z) :
  Mat.at_ (cv2.bitwise_and (Mat.tabulate h w f) b) 0 r c
  = Z.land (Mat.at_ (Mat.tabulate h w f) 0 r c) (Mat.at_ b 0 r c).
Proof.
  unfold cv2.bitwise_and. rewrite tabulate_shape, !at_tabulate.
  now destruct (Mat.inside h w r c).
Qed.

Lemma region_filter_tabulate findContours polyFill opened :
  exists f, Auto.region_filter findContours polyFill opened
            = Mat.tabulate (Mat.height opened) (Mat.width opened) f.
Proof.
  eexists. unfold Auto.region_filter, Mat.zeros_like, Mat.zeros.
  apply fold_draw_tabulate.
Qed.

(** C3, as the code has it.  The final mask is the region-filtered mask
    on the rows from int(0.2 H) to int(0.85 H) of the image, both
    included, and background everywhere else: a foreground pixel of the
    final mask has a row index of at least the floor of H / 5 and at most
    the floor of 17 H / 20, the bottom row of the rectangle being part of
    it. *)
Theorem roi_rows_inclusive
    (bilateralFilter : Mat.t -> Z -> Z -> Z -> Mat.t)
    (boxMean : nat -> Mat.t -> Mat.t)
    (findContours : Mat.t -> list cv2.contour)
    (polyFill : cv2.contour -> cv2.point -> bool)
    (mm_per_px : Q) (img : Mat.t) :
  let l := Auto.locals bilateralFilter boxMean findContours polyFill mm_per_px img in
  let H := Z.of_nat (Mat.height img) in
  (5 * Auto.roi_top H <= H < 5 * Auto.roi_top H + 5)
  /\ (20 * Auto.roi_bottom H <= 17 * H < 20 * Auto.roi_bottom H + 20)
  /\ (forall r c,
        Mat.at_ (Auto.final_mask l) 0 r c
        = if Mat.inside (Mat.height img) (Mat.width img) r c
             && (Auto.roi_top H <=? r) && (r <=? Auto.roi_bottom H)
          then Mat.at_ (Auto.mask_clean l) 0 r c
          else 0)
  /\ (forall r c,
        Mat.at_ (Auto.final_mask l) 0 r c <> 0 ->
        Auto.roi_top H <= r <= Auto.roi_bottom H).
Proof.
  cbv zeta.
  assert (Hcell : forall r c,
    Mat.at_ (Auto.final_mask
               (Auto.locals bilateralFilter boxMean findContours polyFill mm_per_px img))
            0 r c
    = if Mat.inside (Mat.height img) (Mat.width img) r c
         && (Auto.roi_top (Z.of_nat (Mat.height img)) <=? r)
         && (r <=? Auto.roi_bottom (Z.of_nat (Mat.height img)))
      then Mat.at_ (Auto.mask_clean
                      (Auto.locals bilateralFilter boxMean findContours polyFill
                         mm_per_px img)) 0 r c
      else 0).
  { intros r c. unfold Auto.locals. cbn [Auto.final_mask Auto.mask_clean].
    set (opened := cv2.morphologyEx_OPEN _ _ _).
    pose proof (region_filter_two_valued findContours polyFill opened) as Htv.
    destruct (region_filter_tabulate findContours polyFill opened) as [f Hf].
    rewrite Hf in *. rewrite at_bitwise_and_tabulate, at_roi.
    destruct (_ && _ && _).
    - assert (Hv : Mat.at_ (Mat.tabulate (Mat.height opened) (Mat.width opened) f) 0 r c = 0
                   \/ Mat.at_ (Mat.tabulate (Mat.height opened) (Mat.width opened) f) 0 r c = 255)
        by (apply (at_all (fun v => v = 0 \/ v = 255)); auto).
      destruct Hv as [-> | ->]; reflexivity.
    - apply Z.land_0_r. }
  unfold Auto.roi_top, Auto.roi_bottom.
  split; [|split; [|split]].
  - pose proof (Z.mul_div_le (Z.of_nat (Mat.height img)) 5 ltac:(lia)).
    pose proof (Z.mul_succ_div_gt (Z.of_nat (Mat.height img)) 5 ltac:(lia)). lia.
  - pose proof (Z.mul_div_le (17 * Z.of_nat (Mat.height img)) 20 ltac:(lia)).
    pose proof (Z.mul_succ_div_gt (17 * Z.of_nat (Mat.height img)) 20 ltac:(lia)). lia.
  - exact Hcell.
  - intros r c Hnz. rewrite Hcell in Hnz.
    fold (Auto.roi_top (Z.of_nat (Mat.height img))).
    fold (Auto.roi_bottom (Z.of_nat (Mat.height img))).
    destruct (Mat.inside _ _ r c); cbn [andb] in Hnz; [|congruence].
    destruct (Auto.roi_top _ <=? r) eqn:Ht; cbn [andb] in Hnz; [|congruence].
    destruct (r <=? Auto.roi_bottom _) eqn:Hb; [|congruence].
    apply Z.leb_le in Ht, Hb. unfold Auto.roi_top, Auto.roi_bottom in *. lia.
Qed.

Lemma roi_rows_inclusive_witness :
  let l := Auto.locals Samples.no_blur Samples.grey_mean
             (Samples.one_block 0 10 40 10) Samples.closed_polygon
             (1172 # 100000) Samples.scan in
  Mat.at_ (Auto.final_mask l) 0 12 3 <> 0
  /\ Auto.roi_top 20 <= 12 <= Auto.roi_bottom 20.
Proof.
  cbv zeta. split; [vm_compute; discriminate|].
  apply (proj2 (proj2 (proj2
           (roi_rows_inclusive Samples.no_blur Samples.grey_mean
              (Samples.one_block 0 10 40 10) Samples.closed_polygon
              (1172 # 100000) Samples.scan))) 12 3).
  vm_compute. discriminate.
Defined.

(** C3, as stated, fails on an image of 20 rows and 40 columns.  Take a
    region-filtered mask that is a solid block on rows 10 to 19: after the
    intersection with the rectangle, row 17 = int(0.85 * 20) is still
    foreground and row 18 is not, but 17 is not strictly below
    0.85 * 20 = 17, nor below its ceiling.  The sample scan yields that
    mask: it opens to the block, whose outer border has area 351. *)
Lemma roi_bottom_row_is_foreground :
  let img := Samples.scan in
  let mask_clean := Samples.block 20 40 0 10 40 10 in
  let final_mask := cv2.bitwise_and mask_clean (Auto.roi_of img) in
  let l := Auto.locals Samples.no_blur Samples.grey_mean
             (Samples.one_block 0 10 40 10) Samples.closed_polygon
             (1172 # 100000) img in
  Z.of_nat (Mat.height img) = 20
  /\ Mat.at_ final_mask 0 17 0 = 255
  /\ Mat.at_ final_mask 0 18 0 = 0
  /\ ~ (inject_Z 17 < (85 # 100) * inject_Z 20)%Q
  /\ ~ 17 < - (- (17 * 20) / 20)
  /\ Auto.opened l = mask_clean
  /\ Auto.mask_clean l = mask_clean
  /\ Auto.final_mask l = final_mask.
Proof.
  cbv zeta. repeat split; try (vm_compute; reflexivity);
    vm_compute; discriminate.
Qed.

(** The two rows of the band are what Python computes with doubles:
    [int(h * 0.2)] and [int(h * 0.85)], evaluated with binary64 products,
    are the integer quotients for every height up to 2048. *)
Lemma roi_rows_as_floats :
  forallb (fun n =>
      let h := Z.of_nat n in
      (Auto.roi_top_float h =? Auto.roi_top h)
      && (Auto.roi_bottom_float h =? Auto.roi_bottom h))
    (seq 0 2049) = true.
Proof. vm_compute. reflexivity. Qed.

(** ** The area in square millimetres *)

Lemma final_mask_count bilateralFilter boxMean findContours polyFill c img :
  let l := Auto.locals bilateralFilter boxMean findContours polyFill c img in
  Auto.damaged_px l = count_foreground (Auto.final_mask l).
Proof.
  cbv zeta.
  pose proof (final_mask_two_valued bilateralFilter boxMean findContours
                polyFill c img) as Htv.
  unfold Auto.locals in *. cbn [Auto.damaged_px Auto.final_mask] in *.
  apply sum_positive_count.
  eapply all_impl; [|exact Htv]. cbv beta. lia.
Qed.

Lemma poly_mask_01 polyFill h w pts :
  Mat.all (fun v => v = 0 \/ v = 1) (cv2.fillPoly polyFill (Mat.zeros h w) pts 1).
Proof.
  apply all_tabulate. intros r c _.
  destruct (polyFill pts (c, r)); [now right|].
  apply (at_all (fun v => v = 0 \/ v = 1)); [|now left].
  apply all_tabulate. intros; now left.
Qed.

Lemma trace_mask_count polyFill c img points :
  let l := Manual.locals polyFill c img points in
  Manual.pixel_area l = count_foreground (Manual.mask l).
Proof.
  cbv zeta. unfold Manual.locals. cbn [Manual.pixel_area Manual.mask].
  apply sum_count01, poly_mask_01.
Qed.

(** C4. In both modes the area is the number of foreground pixels of the
    mask times the square of the calibration factor, whatever the factor:
    the automatic pipeline counts the cells of the final mask that are
    above 0 and starts with 0.01172 mm per pixel, the manual trace sums a
    mask of zeros and ones and starts with 0.006 mm per pixel; the text
    shown is that area.  A mask with no foreground pixel gives the count
    0 and the area 0. *)
Theorem area_is_count_times_factor_squared
    (bilateralFilter : Mat.t -> Z -> Z -> Z -> Mat.t)
    (boxMean : nat -> Mat.t -> Mat.t)
    (findContours : Mat.t -> list cv2.contour)
    (polyFill : cv2.contour -> cv2.point -> bool)
    (c : Q) (img : Mat.t) (points : list (Q * Q)) :
  let a := Auto.locals bilateralFilter boxMean findContours polyFill c img in
  let m := Manual.locals polyFill c img points in
  (* the automatic pipeline *)
  Auto.damaged_px a = count_foreground (Auto.final_mask a)
  /\ (Auto.area_mm2 a == inject_Z (count_foreground (Auto.final_mask a)) * c ^ 2)%Q
  /\ (forall self, Auto.image self = Some img -> Auto.mm_per_px self = c ->
        exists self',
          Auto.process_image bilateralFilter boxMean findContours polyFill self
            = Ok self'
          /\ Auto.mask self' = Some (Auto.final_mask a)
          /\ Auto.label_info self'
             = Fixed "✅ Damaged Area: " (Auto.area_mm2 a) 2 " mm²")
  /\ (Auto.mm_per_px Auto.init == 1172 # 100000)%Q
  (* the manual trace *)
  /\ Manual.pixel_area m = count_foreground (Manual.mask m)
  /\ (Manual.mm2_area m == inject_Z (count_foreground (Manual.mask m)) * c ^ 2)%Q
  /\ (forall self, Manual.image self = Some img -> Manual.pixel_spacing_mm self = c ->
        Manual.points self = points -> (3 <= List.length points)%nat ->
        exists self',
          Manual.calculate_area polyFill self = Ok self'
          /\ Manual.area_label self'
             = Fixed "Lesion Area: " (Manual.mm2_area m) 4 " mm²")
  /\ (Manual.pixel_spacing_mm Manual.init == 6 # 1000)%Q
  (* no foreground pixel *)
  /\ (Mat.all (fun v => v = 0) (Auto.final_mask a) ->
        Auto.damaged_px a = 0 /\ (Auto.area_mm2 a == 0)%Q)
  /\ (Mat.all (fun v => v = 0) (Manual.mask m) ->
        Manual.pixel_area m = 0 /\ (Manual.mm2_area m == 0)%Q).
Proof.
  cbv zeta.
  pose proof (final_mask_count bilateralFilter boxMean findContours polyFill c img)
    as Ha. cbv zeta in Ha.
  pose proof (trace_mask_count polyFill c img points) as Hm. cbv zeta in Hm.
  assert (Haa : (Auto.area_mm2 (Auto.locals bilateralFilter boxMean findContours
                                  polyFill c img)
                 == inject_Z (Auto.damaged_px (Auto.locals bilateralFilter boxMean
                                  findContours polyFill c img)) * c ^ 2)%Q)
    by reflexivity.
  assert (Hma : (Manual.mm2_area (Manual.locals polyFill c img points)
                 == inject_Z (Manual.pixel_area (Manual.locals polyFill c img points))
                    * c ^ 2)%Q)
    by reflexivity.
  split; [|split; [|split; [|split; [|split; [|split; [|split; [|split; [|split]]]]]]]].
  - exact Ha.
  - now rewrite <- Ha.
  - intros self Himg Hc. eexists. unfold Auto.process_image.
    rewrite Himg, Hc. cbn [Auto.mask Auto.label_info]. repeat split.
  - reflexivity.
  - exact Hm.
  - now rewrite <- Hm.
  - intros self Himg Hc Hpts Hlen. eexists. unfold Manual.calculate_area.
    rewrite Himg, Hc, Hpts.
    replace (List.length points <? 3)%nat with false
      by (symmetry; apply Nat.ltb_ge; exact Hlen).
    cbn [Manual.show_image Manual.area_label]. split; reflexivity.
  - reflexivity.
  - intros Hz. apply count_foreground_zero in Hz. rewrite <- Ha in Hz.
    split; [exact Hz|]. rewrite Haa, Hz. reflexivity.
  - intros Hz. apply count_foreground_zero in Hz. rewrite <- Hm in Hz.
    split; [exact Hz|]. rewrite Hma, Hz. reflexivity.
Qed.

Lemma area_is_count_times_factor_squared_witness :
  let a := Auto.locals Samples.no_blur Samples.grey_mean (fun _ => [])
             Samples.closed_polygon (1172 # 100000) [[7; 7]; [7; 7]] in
  Auto.damaged_px a = 0 /\ (Auto.area_mm2 a == 0)%Q.
Proof.
  cbv zeta.
  destruct (area_is_count_times_factor_squared Samples.no_blur Samples.grey_mean
              (fun _ => []) Samples.closed_polygon (1172 # 100000)
              [[7; 7]; [7; 7]] Samples.triangle)
    as [_ [_ [_ [_ [_ [_ [_ [_ [Hzero _]]]]]]]]].
  apply Hzero. vm_compute. repeat constructor.
Defined.

Example scan_area :
  let a := Auto.locals Samples.no_blur Samples.grey_mean
             (Samples.one_block 0 10 40 10) Samples.closed_polygon
             (1172 # 100000) Samples.scan in
  Auto.damaged_px a = 320
  /\ (Auto.area_mm2 a == inject_Z 320 * (1172 # 100000) ^ 2)%Q.
Proof. cbv zeta. split; vm_compute; reflexivity. Qed.

(** ** The manual trace *)







Section Release.

Variable polyFill : cv2.contour -> cv2.point -> bool.
(** [cv2.fillPoly] draws the outline of the polygon, so the cell of every
    vertex is set. *)
Hypothesis polyFill_vertices :
  forall pts p, In p pts -> polyFill pts p = true.



End Release.


Example triangle_area :
  exists self',
    Manual.on_release Samples.closed_polygon
      (Samples.tracing Samples.triangle) = Ok self'
    /\ exists area, Manual.area_label self' = Fixed "Lesion Area: " area 4 " mm²"
       /\ (area == inject_Z 31 * (6 # 1000) ^ 2)%Q.
Proof.
  eexists. split; [reflexivity|]. eexists. split; [reflexivity|].
  vm_compute. reflexivity.
Qed.

(** ** Clearing the trace *)

Lemma idle_step_without_press polyFill imread (self : Manual.LesionAreaApp)
    (ev : Manual.event) :
  Manual.is_press ev = false ->
  Manual.drawing self = false -> Manual.points self = [] ->
  exists self',
    Manual.step polyFill imread self ev = Ok self'
    /\ Manual.drawing self' = false /\ Manual.points self' = [].
Proof.
  intros Hev Hd Hp. destruct ev as [e|e| | |file_path]; cbn [Manual.step].
  - discriminate Hev.
  - exists self. unfold Manual.on_motion. rewrite Hd. auto.
  - exists self. unfold Manual.on_release. rewrite Hd. auto.
  - eexists. split; [reflexivity|]. cbn. auto.
  - eexists. split; [reflexivity|]. unfold Manual.load_image.
    destruct (String.eqb file_path ""); cbn; auto.
Qed.

Lemma idle_run_without_press polyFill imread (evs : list Manual.event) :
  forall self,
  forallb (fun ev => negb (Manual.is_press ev)) evs = true ->
  Manual.drawing self = false -> Manual.points self = [] ->
  exists self',
    Manual.run polyFill imread self evs = Ok self'
    /\ Manual.drawing self' = false /\ Manual.points self' = [].
Proof.
  induction evs as [|ev evs IH]; intros self Hevs Hd Hp.
  - exists self. auto.
  - cbn [forallb] in Hevs. apply andb_true_iff in Hevs. destruct Hevs as [Hev Hevs].
    apply negb_true_iff in Hev.
    destruct (idle_step_without_press polyFill imread self ev Hev Hd Hp)
      as [self1 [Hs [Hd1 Hp1]]].
    cbn [Manual.run]. rewrite Hs. now apply IH.
Qed.

(** C8, as the code has it.  The clear control empties the point sequence
    in every state and leaves the drawing flag as it is.  Invoked at
    rest, the window stays at rest with no point, and no event other than
    a press appends one: after any run of motions, releases, clears and
    loads the sequence is still empty. *)
Theorem clear_empties_the_points
    (polyFill : cv2.contour -> cv2.point -> bool)
    (imread : string -> option Mat.t) (self : Manual.LesionAreaApp) :
  Manual.points (Manual.clear_points self) = []
  /\ Manual.drawing (Manual.clear_points self) = Manual.drawing self
  /\ Manual.area_label (Manual.clear_points self)
     = Plain "Draw a lesion to calculate area."
  /\ (Manual.Idle self ->
      Manual.Idle (Manual.clear_points self)
      /\ forall evs,
           forallb (fun ev => negb (Manual.is_press ev)) evs = true ->
           exists self',
             Manual.run polyFill imread (Manual.clear_points self) evs = Ok self'
             /\ Manual.Idle self' /\ Manual.points self' = []).
Proof.
  split; [reflexivity|]. split; [reflexivity|]. split; [reflexivity|].
  intros Hidle. split; [exact Hidle|].
  intros evs Hevs. unfold Manual.Idle in *.
  now apply idle_run_without_press.
Qed.

Lemma clear_empties_the_points_witness :
  exists self',
    Manual.run Samples.closed_polygon Samples.one_file
      (Manual.clear_points (Samples.at_rest Samples.triangle (Plain "")))
      [Manual.Motion (Samples.mouse 3 4); Manual.Release;
       Manual.Motion (Samples.mouse 5 6)] = Ok self'
    /\ Manual.Idle self' /\ Manual.points self' = [].
Proof.
  destruct (clear_empties_the_points Samples.closed_polygon Samples.one_file
              (Samples.at_rest Samples.triangle (Plain ""))) as [_ [_ [_ H]]].
  destruct (H eq_refl) as [_ Hrun].
  apply Hrun. reflexivity.
Defined.

(** C8, as stated, fails in the Tracing state: the clear control empties
    the points but the window is still tracing, and the next motion
    appends a point although no press came in between. *)
Lemma clear_while_tracing_keeps_tracing :
  let self := Samples.tracing Samples.two_points in
  Manual.Tracing self
  /\ Manual.points (Manual.clear_points self) = []
  /\ Manual.Tracing (Manual.clear_points self)
  /\ ~ Manual.Idle (Manual.clear_points self)
  /\ exists self',
       Manual.run Samples.closed_polygon Samples.one_file self
         [Manual.ClearClicked; Manual.Motion (Samples.mouse 5 6)] = Ok self'
       /\ Manual.points self' = [Samples.pt 5 6].
Proof.
  cbv zeta. repeat split.
  - unfold Manual.Idle. cbn. discriminate.
  - eexists. split; reflexivity.
Qed.

(** ** Loading an image that does not decode *)

(** C7 at the failing input, the manual variant.  The window holds the
    scan and shows an area; a file that does not decode is picked.  The
    image held is replaced by [None], the canvas is redrawn without an
    image, and nothing tells the user: the label is as before. *)
Lemma manual_load_failure_drops_the_image :
  let self := Samples.at_rest Samples.triangle
                (Fixed "Lesion Area: " (1116 # 1000000) 4 " mm²") in
  let self' := Manual.load_image Samples.one_file "broken.png" self in
  Samples.one_file "broken.png" = None
  /\ Manual.image self = Some Samples.scan
  /\ Manual.image self' = None
  /\ Manual.canvas self' = (None, Samples.triangle)
  /\ Manual.area_label self' = Manual.area_label self.
Proof. cbv zeta. repeat split. Qed.

(** The automatic variant does what C7 says: a file that does not decode
    leaves the image, the mask, the figure and the buttons as they were,
    runs no pipeline, and reports the failure in the label. *)
Lemma auto_load_failure_keeps_the_state
    (bilateralFilter : Mat.t -> Z -> Z -> Z -> Mat.t)
    (boxMean : nat -> Mat.t -> Mat.t)
    (findContours : Mat.t -> list cv2.contour)
    (polyFill : cv2.contour -> cv2.point -> bool)
    (imread : string -> option Mat.t)
    (file_path : string) (self : Auto.OCTLesionAutoApp) :
  file_path <> ""%string -> imread file_path = None ->
  exists self',
    Auto.load_image bilateralFilter boxMean findContours polyFill imread
      file_path self = Ok self'
    /\ Auto.image self' = Auto.image self
    /\ Auto.mask self' = Auto.mask self
    /\ Auto.figure self' = Auto.figure self
    /\ Auto.mm_per_px self' = Auto.mm_per_px self
    /\ Auto.btn_clear_enabled self' = Auto.btn_clear_enabled self
    /\ Auto.btn_save_enabled self' = Auto.btn_save_enabled self
    /\ Auto.label_info self' = Plain "❌ Failed to load image.".
Proof.
  intros Hpath Hread. eexists. unfold Auto.load_image.
  apply String.eqb_neq in Hpath. rewrite Hpath, Hread.
  repeat split.
Qed.

Lemma auto_load_failure_keeps_the_state_witness :
  exists self',
    Auto.load_image Samples.no_blur Samples.grey_mean
      (Samples.one_block 0 10 40 10) Samples.closed_polygon Samples.one_file
      "broken.png" Auto.init = Ok self'
    /\ Auto.image self' = None
    /\ Auto.label_info self' = Plain "❌ Failed to load image.".
Proof.
  destruct (auto_load_failure_keeps_the_state Samples.no_blur Samples.grey_mean
              (Samples.one_block 0 10 40 10) Samples.closed_polygon
              Samples.one_file "broken.png" Auto.init)
    as [self' [Hr [Hi [_ [_ [_ [_ [_ Hl]]]]]]]];
    [discriminate | reflexivity |].
  exists self'. auto.
Defined.

(** ** Only the integer parts of the coordinates count *)

(** C10. Two traces whose coordinates have the same integer parts, on
    images of the same shape and with the same pixel spacing, give the
    same polygon mask, the same pixel count and the same area, and the
    same label when they hold three points or more. *)
Theorem area_depends_on_truncated_points
    (polyFill : cv2.contour -> cv2.point -> bool)
    (c : Q) (img1 img2 : Mat.t) (points1 points2 : list (Q * Q)) :
  Mat.height img1 = Mat.height img2 -> Mat.width img1 = Mat.width img2 ->
  Manual.int32_array points1 = Manual.int32_array points2 ->
  let l1 := Manual.locals polyFill c img1 points1 in
  let l2 := Manual.locals polyFill c img2 points2 in
  Manual.mask l1 = Manual.mask l2
  /\ Manual.pixel_area l1 = Manual.pixel_area l2
  /\ Manual.mm2_area l1 = Manual.mm2_area l2
  /\ forall self1 self2,
       Manual.image self1 = Some img1 -> Manual.image self2 = Some img2 ->
       Manual.pixel_spacing_mm self1 = c -> Manual.pixel_spacing_mm self2 = c ->
       Manual.points self1 = points1 -> Manual.points self2 = points2 ->
       (3 <= List.length points1)%nat ->
       exists self1' self2',
         Manual.calculate_area polyFill self1 = Ok self1'
         /\ Manual.calculate_area polyFill self2 = Ok self2'
         /\ Manual.area_label self1' = Manual.area_label self2'.
Proof.
  intros Hh Hw Hpts. cbv zeta.
  assert (Hl : Manual.locals polyFill c img1 points1
               = Manual.locals polyFill c img2 points2).
  { unfold Manual.locals. now rewrite Hh, Hw, Hpts. }
  rewrite Hl. repeat split.
  intros self1 self2 Hi1 Hi2 Hc1 Hc2 Hp1 Hp2 Hlen.
  assert (Hlen2 : (3 <= List.length points2)%nat).
  { apply (f_equal (@List.length _)) in Hpts.
    unfold Manual.int32_array in Hpts. rewrite !length_map in Hpts. lia. }
  eexists. eexists. unfold Manual.calculate_area.
  rewrite Hi1, Hi2, Hc1, Hc2, Hp1, Hp2.
  replace (List.length points1 <? 3)%nat with false
    by (symmetry; apply Nat.ltb_ge; exact Hlen).
  replace (List.length points2 <? 3)%nat with false
    by (symmetry; apply Nat.ltb_ge; exact Hlen2).
  split; [reflexivity|]. split; [reflexivity|].
  cbn [Manual.show_image Manual.area_label]. now rewrite Hl.
Qed.

Lemma area_depends_on_truncated_points_witness :
  let l1 := Manual.locals Samples.closed_polygon (6 # 1000) Samples.scan
              Samples.triangle in
  let l2 := Manual.locals Samples.closed_polygon (6 # 1000) Samples.scan
              Samples.triangle' in
  Samples.triangle <> Samples.triangle'
  /\ Manual.mask l1 = Manual.mask l2
  /\ Manual.pixel_area l1 = Manual.pixel_area l2
  /\ Manual.mm2_area l1 = Manual.mm2_area l2.
Proof.
  cbv zeta. split; [discriminate|].
  destruct (area_depends_on_truncated_points Samples.closed_polygon (6 # 1000)
              Samples.scan Samples.scan Samples.triangle Samples.triangle'
              eq_refl eq_refl eq_refl) as [Hm [Hp [Ha _]]].
  auto.
Defined.
